(** * Cached RAG chatbot: semantic cache in front of a bounded-retry workflow

    A shallow embedding of
    [semantic_caching/RAG_chatbot_with_semantic_caching/cached_rag_chatbot_chroma.py]
    (class [CachedRAGChatbot] and the LangGraph workflow it builds), and the
    properties of its retry loop, its two entry points [query] and
    [query_stream], and its cache loading.

    Conventions.
    - Python [int] is [Z]; Python [str] is [string]; a value that may be
      [None] is an [option].
    - Python [float] values are only passed through by this code and are
      carried as [Q].
    - Exceptions are values of [PyExn]; a computation that may raise returns an
      [outcome].
    - Every call that leaves the class (language models, retriever, the
      [SemanticCache] object, the file system) goes through a record of
      [Collaborators] acting on an abstract [World], and is appended to a call
      log, so that "was the grader invoked" is a statement about the log.
    - [print] statements are not modelled. *)

From Stdlib Require Import ZArith QArith List String Ascii Lia Bool.
From Stdlib Require Import DecimalString.
From stdpp Require Import base option list strings gmap.

Local Open Scope string_scope.
Local Open Scope Z_scope.

(** ** Python values used by the class *)

(** An exception: its class name and [str(e)]. *)
Record PyExn := { exn_type : string; exn_msg : string }.

Inductive outcome (A : Type) : Type :=
| Ok (a : A)
| Raise (e : PyExn).
Arguments Ok {A} a.
Arguments Raise {A} e.

(** A tool-invocation request inside an assistant message.  The only tool
    bound into the model is [retrieve_documents(query: str)]. *)
Record ToolCall := { tc_name : string; tc_query : string; tc_id : string }.

(** [langchain_core.messages]: user, assistant and tool-result messages. *)
Inductive Message :=
| HumanMessage (text : string)
| AIMessage (text : string) (tool_calls : list ToolCall)
| ToolMessage (text : string) (tool_call_id : string).

(** [m.content] *)
Definition content (m : Message) : string :=
  match m with
  | HumanMessage t => t
  | AIMessage t _ => t
  | ToolMessage t _ => t
  end.

(** [class ExtendedState(MessagesState)]: the message list and
    [retry_count: Annotated[int, operator.add] = 0]. *)
Record ExtendedState := { messages : list Message; retry_count : Z }.

(** What a node returns: a partial state.  [upd_retry_count = None] means the
    key is absent from the returned dict. *)
Record StateUpdate := { upd_messages : list Message; upd_retry_count : option Z }.

(** The channel reducers.  [messages] uses LangGraph's [add_messages]; every
    message written by this workflow is either built without an id (and gets
    a fresh one) or carries the provider's fresh id, so the reducer appends.
    [retry_count] uses [operator.add]. *)
Definition apply_update (st : ExtendedState) (u : StateUpdate) : ExtendedState :=
  {| messages := messages st ++ upd_messages u;
     retry_count := retry_count st + default 0 (upd_retry_count u) |}.

(** [SemanticCache.check] result: [cache_results.hit],
    [cache_results.best_match] and the fields read from the best match. *)
Record CacheMatch := {
  prompt : string;
  response : string;
  vector_distance : Q;
  cosine_similarity : Q }.

Record CacheLookup := { hit : bool; best_match : option CacheMatch }.

(** The dict returned by [query]. *)
Record CacheInfo := {
  matched_question : string;
  distance : Q;
  similarity : Q }.

Record QueryResult := {
  answer : string;
  cache_hit : bool;
  cache_info : option CacheInfo }.

(** Node names of the workflow, as registered with [workflow.add_node]. *)
Inductive NodeName :=
| NGenerateQueryOrRespond
| NRetrieve
| NRewriteQuestion
| NGenerateAnswer
| NGenerateFallback.

Definition node_label (n : NodeName) : string :=
  match n with
  | NGenerateQueryOrRespond => "generate_query_or_respond"
  | NRetrieve => "retrieve"
  | NRewriteQuestion => "rewrite_question"
  | NGenerateAnswer => "generate_answer"
  | NGenerateFallback => "generate_fallback"
  end.

#[global] Instance NodeName_eq_dec : EqDecision NodeName.
Proof. solve_decision. Defined.

(** The return type of [grade_documents]:
    [Literal["generate_answer", "rewrite_question", "generate_fallback"]]. *)
Inductive GradeDecision :=
| generate_answer_route
| rewrite_question_route
| generate_fallback_route.

(** The events yielded by [query_stream] (the ["type"] key is the
    constructor). *)
Inductive StreamEvent :=
| EvCacheHit (ev_answer : string) (ev_cache_info : CacheInfo)
| EvCacheMiss
| EvNodeUpdate (ev_node : string) (ev_messages : list Message)
| EvComplete (ev_answer : option string)
| EvError (ev_answer : string).

(** Calls that leave the class, in the order they are made. *)
Inductive ExternalCall :=
| CallCacheCheck (question : string) (num_results : nat)
| CallCacheAddPair (question answer : string)
| CallCacheHydrate (pairs : list (option string * option string))
| CallCacheSave (filepath : string)
| CallDocStoreLoad
| CallDocStoreStats
| CallGetRetriever (k : nat)
| CallOpenCsv (filepath : string)
| CallRetriever (query_text : string)
| CallResponseModelWithTools (input : list Message)
| CallResponseModel (prompt_text : string)
| CallGraderModel (prompt_text : string).

(** [x in s] for Python strings: [needle] occurs in [s]. *)
Fixpoint is_prefix (p s : string) : bool :=
  match p, s with
  | EmptyString, _ => true
  | String a p', String b s' => if Ascii.eqb a b then is_prefix p' s' else false
  | String _ _, EmptyString => false
  end.

Fixpoint contains (needle s : string) : bool :=
  is_prefix needle s ||
  match s with
  | EmptyString => false
  | String _ s' => contains needle s'
  end.

(** [s.lower()] on the ASCII letters, a string being its UTF-8 bytes.
    Python's [lower] also maps letters outside ASCII; the only one that gives
    a letter of "recursion" is U+0130, which becomes "i" followed by a
    combining dot and so cannot complete the word: for the membership test
    made by [query] and [query_stream] the two agree. *)
Definition lower_ascii (a : ascii) : ascii :=
  let n := nat_of_ascii a in
  if (65 <=? n)%nat && (n <=? 90)%nat then ascii_of_nat (n + 32) else a.

Fixpoint lower (s : string) : string :=
  match s with
  | EmptyString => EmptyString
  | String a s' => String (lower_ascii a) (lower s')
  end.

(** [sep.join(parts)] *)
Fixpoint join (sep : string) (parts : list string) : string :=
  match parts with
  | [] => ""
  | [p] => p
  | p :: rest => p +:+ sep +:+ join sep rest
  end.

Definition NL : string := String (ascii_of_nat 10) EmptyString.

(** [str(n)] for a natural number. *)
Definition str_of_nat (n : nat) : string := NilEmpty.string_of_uint (Nat.to_uint n).

(** ** The chatbot object and its collaborators *)

(** The compiled workflow held in [self.graph]; [_setup_graph] always builds
    the same one, whose execution is [graph_stream] below. *)
Inductive CompiledGraph := RagWorkflow.

(** The tool held in [self.retriever_tool]: the [@tool] function
    [retrieve_documents], closed over the retriever that
    [doc_store.get_retriever(k=...)] returned. *)
Record RetrieverTool : Set := { tool_name : string; tool_k : nat }.

Section Chatbot.

(** [Cache] is the state of the [SemanticCache] object, a class the module
    imports from [semantic_cache] and does not define; [World] is everything
    outside the process: model providers, the vector store, the file
    system. *)
Context {Cache World : Type}.

(** [self]: the attributes the methods read or assign. *)
Record CachedRAGChatbot := {
  cache : Cache;
  max_retries : Z;
  graph : option CompiledGraph;
  retriever_tool : option RetrieverTool }.

(** Everything the class calls but does not define.  A chat model replies
    with an assistant message, given here as its text and its tool calls. *)
Record Collaborators := {
  (** [SemanticCache.check(question, num_results)] *)
  cache_check : string -> nat -> Cache -> World -> outcome CacheLookup * Cache * World;
  (** [SemanticCache.add_pair(question, answer)] *)
  cache_add_pair : string -> string -> Cache -> World -> outcome unit * Cache * World;
  (** [SemanticCache.hydrate_from_pairs(pairs)]; a component of a pair read
      from a CSV row may be [None] *)
  cache_hydrate_from_pairs :
    list (option string * option string) -> Cache -> World -> outcome unit * Cache * World;
  (** [SemanticCache.save_to_file(filepath)] *)
  cache_save_to_file : string -> Cache -> World -> outcome unit * Cache * World;
  (** [DocumentVectorStore.load_existing()] *)
  doc_store_load_existing : World -> outcome bool * World;
  (** [DocumentVectorStore.get_stats()], rendered as text *)
  doc_store_get_stats : World -> outcome string * World;
  (** [DocumentVectorStore.get_retriever(k)]: the retriever behind
      [retriever_invoke] is created in the world *)
  doc_store_get_retriever : nat -> World -> outcome unit * World;
  (** [open(filepath)] followed by [csv.reader]: the rows of the file, each a
      list of fields *)
  csv_reader : string -> World -> outcome (list (list string)) * World;
  (** [retriever.invoke(query)]: the [page_content] of the documents found *)
  retriever_invoke : string -> World -> outcome (list string) * World;
  (** [response_model.bind_tools([retriever_tool]).invoke(messages)] *)
  response_model_bind_tools_invoke :
    list Message -> World -> outcome (string * list ToolCall) * World;
  (** [response_model.invoke([{"role": "user", "content": prompt}])] *)
  response_model_invoke : string -> World -> outcome (string * list ToolCall) * World;
  (** [grader_model.with_structured_output(GradeDocuments).invoke(...)]:
      the [binary_score] of the reply *)
  grader_model_invoke : string -> World -> outcome string * World;
  (** What [ToolNode] does with an exception raised by a tool: [Some text]
      turns it into the text of the tool message, [None] lets it propagate. *)
  tool_error_text : PyExn -> option string }.

Variable ext : Collaborators.

(** The state threaded through a method call. *)
Record Sys := { self : CachedRAGChatbot; world : World; calls : list ExternalCall }.

Definition M (A : Type) : Type := Sys -> outcome A * Sys.

Definition ret {A} (a : A) : M A := fun s => (Ok a, s).
Definition raise {A} (e : PyExn) : M A := fun s => (Raise e, s).
Definition bind {A B} (c : M A) (k : A -> M B) : M B :=
  fun s => match c s with
           | (Ok a, s') => k a s'
           | (Raise e, s') => (Raise e, s')
           end.
Definition get_self : M CachedRAGChatbot := fun s => (Ok (self s), s).

Notation "'let*' x ':=' c 'in' k" := (bind c (fun x => k))
  (at level 10, x pattern, c at level 100, k at level 200).

(** A call on an external service: it acts on the world only. *)
Definition external {A} (c : ExternalCall) (f : World -> outcome A * World) : M A :=
  fun s => let '(r, w) := f (world s) in
           (r, {| self := self s; world := w; calls := calls s ++ [c] |}).

(** A call on [self.cache]: it acts on the cache object and the world. *)
Definition on_cache {A} (c : ExternalCall)
    (f : Cache -> World -> outcome A * Cache * World) : M A :=
  fun s => let '(r, c', w) := f (cache (self s)) (world s) in
           (r, {| self := {| cache := c'; max_retries := max_retries (self s);
                             graph := graph (self s);
                             retriever_tool := retriever_tool (self s) |};
                  world := w; calls := calls s ++ [c] |}).

Definition ValueError (msg : string) : PyExn := {| exn_type := "ValueError"; exn_msg := msg |}.
Definition IndexError : PyExn :=
  {| exn_type := "IndexError"; exn_msg := "list index out of range" |}.
Definition AttributeError (msg : string) : PyExn :=
  {| exn_type := "AttributeError"; exn_msg := msg |}.
(** [str(KeyError(k))] is [repr(k)]. *)
Definition KeyError (key : string) : PyExn :=
  {| exn_type := "KeyError"; exn_msg := "'" +:+ key +:+ "'" |}.

(** [l[0]] and [l[-1]] *)
Definition first_item {A} (l : list A) : M A :=
  match l with
  | x :: _ => ret x
  | [] => raise IndexError
  end.
Definition last_item {A} (l : list A) : M A :=
  match last l with
  | Some x => ret x
  | None => raise IndexError
  end.

(** [try: body except Exception as e: handler(e)] *)
Definition try_except {A} (body : M A) (handler : PyExn -> M A) : M A :=
  fun s => match body s with
           | (Ok a, s') => (Ok a, s')
           | (Raise e, s') => handler e s'
           end.

(** ** The workflow built by [_setup_graph] *)

(** The [@tool] [retrieve_documents]. *)
Definition retrieve_documents (query_text : string) : M string :=
  let* docs := external (CallRetriever query_text) (retriever_invoke ext query_text) in
  ret (join (NL +:+ NL) docs).

Definition generate_query_or_respond (state : ExtendedState) : M StateUpdate :=
  let* reply := external (CallResponseModelWithTools (messages state))
                         (response_model_bind_tools_invoke ext (messages state)) in
  ret {| upd_messages := [AIMessage (fst reply) (snd reply)]; upd_retry_count := None |}.

(** [GRADE_PROMPT.format(question=question, context=context)] *)
Definition GRADE_PROMPT (question context : string) : string :=
  "You are a grader assessing relevance of a retrieved document to a user question. "
  +:+ NL +:+ " Here is the retrieved document: " +:+ NL +:+ NL +:+ " " +:+ context
  +:+ " " +:+ NL +:+ NL +:+ "Here is the user question: " +:+ question +:+ " " +:+ NL
  +:+ "If the document contains keyword(s) or semantic meaning related to the user question, grade it as relevant. "
  +:+ NL
  +:+ "Give a binary score 'yes' or 'no' score to indicate whether the document is relevant to the question.".

Definition grade_documents (state : ExtendedState) : M GradeDecision :=
  let* m0 := first_item (messages state) in
  let question := content m0 in
  let* mlast := last_item (messages state) in
  let context := content mlast in
  let retry := retry_count state in
  let* me := get_self in
  if max_retries me <=? retry then ret generate_fallback_route
  else
    let prompt_text := GRADE_PROMPT question context in
    let* score := external (CallGraderModel prompt_text) (grader_model_invoke ext prompt_text) in
    if String.eqb score "yes" then ret generate_answer_route
    else ret rewrite_question_route.

(** [REWRITE_PROMPT.format(question=question)] *)
Definition REWRITE_PROMPT (question : string) : string :=
  "Look at the input and try to reason about the underlying semantic intent / meaning."
  +:+ NL +:+ "Here is the initial question:" +:+ NL +:+ " ------- " +:+ NL +:+ question
  +:+ NL +:+ " ------- " +:+ NL +:+ "Formulate an improved question:".

Definition rewrite_question (state : ExtendedState) : M StateUpdate :=
  let msgs := messages state in
  let* m0 := first_item msgs in
  let question := content m0 in
  let prompt_text := REWRITE_PROMPT question in
  let* reply := external (CallResponseModel prompt_text) (response_model_invoke ext prompt_text) in
  ret {| upd_messages := [HumanMessage (fst reply)]; upd_retry_count := Some 1 |}.

(** [GENERATE_PROMPT.format(question=question, context=context)] *)
Definition GENERATE_PROMPT (question context : string) : string :=
  "You are a helpful TaskFlow assistant for question-answering tasks. "
  +:+ "Use the following pieces of retrieved context to answer the question. "
  +:+ "If you don't know the answer, just say that you don't know. "
  +:+ "Use three sentences maximum and keep the answer concise." +:+ NL
  +:+ "Question: " +:+ question +:+ " " +:+ NL
  +:+ "Context: " +:+ context.

Definition generate_answer (state : ExtendedState) : M StateUpdate :=
  let* m0 := first_item (messages state) in
  let question := content m0 in
  let* mlast := last_item (messages state) in
  let context := content mlast in
  let prompt_text := GENERATE_PROMPT question context in
  let* reply := external (CallResponseModel prompt_text) (response_model_invoke ext prompt_text) in
  ret {| upd_messages := [AIMessage (fst reply) (snd reply)]; upd_retry_count := None |}.

(** [FALLBACK_PROMPT.format(question=question)] *)
Definition FALLBACK_PROMPT (question : string) : string :=
  "You are a helpful TaskFlow assistant. "
  +:+ "A user asked the following question, but we couldn't find relevant information in our documentation."
  +:+ NL +:+ "Question: " +:+ question +:+ NL +:+ NL
  +:+ "Provide a helpful response that:" +:+ NL
  +:+ "1. Politely acknowledges we don't have specific information about this in our TaskFlow documentation"
  +:+ NL
  +:+ "2. Suggests what they could try (contact support, check our website, rephrase question)"
  +:+ NL
  +:+ "3. If you can infer what they're asking about, provide general helpful context"
  +:+ NL +:+ "Keep it brief and friendly.".

Definition generate_fallback (state : ExtendedState) : M StateUpdate :=
  let* m0 := first_item (messages state) in
  let question := content m0 in
  let prompt_text := FALLBACK_PROMPT question in
  let* reply := external (CallResponseModel prompt_text) (response_model_invoke ext prompt_text) in
  ret {| upd_messages := [AIMessage (fst reply) (snd reply)]; upd_retry_count := None |}.

(** *** The parts of LangGraph the workflow is built from *)

(** [langgraph.prebuilt.tools_condition]: ["tools"] when the last message is
    an assistant message with at least one tool call, otherwise [END]. *)
Inductive ToolsRoute := tools_route | end_route.

Definition tools_condition (state : ExtendedState) : M ToolsRoute :=
  match last (messages state) with
  | None => raise (ValueError "No messages found in input state to tool_edge")
  | Some (AIMessage _ (_ :: _)) => ret tools_route
  | Some _ => ret end_route
  end.

(** [ToolNode([retriever_tool])] on one tool call: the tool's result becomes
    a tool message; a call to an unknown tool is answered with an error
    text; an exception raised by the tool is handled as [tool_error_text]
    says. *)
Definition run_tool_call (tc : ToolCall) : M Message :=
  if String.eqb (tc_name tc) "retrieve_documents" then
    try_except
      (let* text := retrieve_documents (tc_query tc) in
       ret (ToolMessage text (tc_id tc)))
      (fun e => match tool_error_text ext e with
                | Some text => ret (ToolMessage text (tc_id tc))
                | None => raise e
                end)
  else
    ret (ToolMessage ("Error: " +:+ tc_name tc
                      +:+ " is not a valid tool, try one of [retrieve_documents].")
                     (tc_id tc)).

Fixpoint run_tool_calls (tcs : list ToolCall) : M (list Message) :=
  match tcs with
  | [] => ret []
  | tc :: rest =>
      let* m := run_tool_call tc in
      let* ms := run_tool_calls rest in
      ret (m :: ms)
  end.

Definition tool_node (state : ExtendedState) : M StateUpdate :=
  match last (messages state) with
  | Some (AIMessage _ tcs) =>
      let* ms := run_tool_calls tcs in
      ret {| upd_messages := ms; upd_retry_count := None |}
  | _ => raise (ValueError "Last message is not an AIMessage")
  end.

(** [workflow.add_node]: the function behind each node name. *)
Definition run_node (n : NodeName) (state : ExtendedState) : M StateUpdate :=
  match n with
  | NGenerateQueryOrRespond => generate_query_or_respond state
  | NRetrieve => tool_node state
  | NRewriteQuestion => rewrite_question state
  | NGenerateAnswer => generate_answer state
  | NGenerateFallback => generate_fallback state
  end.

(** [workflow.add_edge] and [workflow.add_conditional_edges]: where control
    goes after node [n], decided on the state that already holds the update
    of [n]. *)
Inductive Route := Goto (n : NodeName) | END.

Definition route_after (n : NodeName) (state : ExtendedState) : M Route :=
  match n with
  | NGenerateQueryOrRespond =>
      let* r := tools_condition state in
      ret (match r with tools_route => Goto NRetrieve | end_route => END end)
  | NRetrieve =>
      let* d := grade_documents state in
      ret (match d with
           | generate_answer_route => Goto NGenerateAnswer
           | rewrite_question_route => Goto NRewriteQuestion
           | generate_fallback_route => Goto NGenerateFallback
           end)
  | NRewriteQuestion => ret (Goto NGenerateQueryOrRespond)
  | NGenerateAnswer => ret END
  | NGenerateFallback => ret END
  end.

(** LangGraph's [GraphRecursionError], with the message the library gives
    it. *)
Definition GraphRecursionError (recursion_limit : nat) : PyExn :=
  {| exn_type := "GraphRecursionError";
     exn_msg := "Recursion limit of " +:+ str_of_nat recursion_limit
                +:+ " reached without hitting a stop condition. "
                +:+ "You can increase the limit by setting the `recursion_limit` config key." |}.

(** One executed step: the node, the update it returned, the state after the
    update, and the system state at the moment the step is reported, which is
    when the node has returned. *)
Record Step := {
  step_node : NodeName;
  step_update : StateUpdate;
  step_state : ExtendedState;
  step_sys : Sys }.

(** A fully consumed generator: what it yielded, how it ended, and the system
    state at its end. *)
Definition Generator (A : Type) : Type := (list A * outcome unit * Sys)%type.

(** A node followed by its outgoing edge, as one computation. *)
Definition graph_step (n : NodeName) (state : ExtendedState)
    : M (StateUpdate * ExtendedState * Route) :=
  let* u := run_node n state in
  let state' := apply_update state u in
  let* r := route_after n state' in
  ret (u, state', r).

(** The step loop of the compiled graph (LangGraph's runner).  A step runs
    one node; when the node raises, the run ends with its exception and
    nothing is reported.  Otherwise the update is merged and reported to the
    consumer of the stream, and the outgoing edge is evaluated on the new
    state; when the edge raises (the grader, for the edge out of [retrieve]),
    the run ends with its exception, the update having been reported.  When
    this was step number [recursion_limit], the runner raises
    [GraphRecursionError], whether or not the edge leads to [END]: a run
    completes only in fewer than [recursion_limit] steps.  [fuel] is the
    number of steps still allowed. *)
Fixpoint run_graph (recursion_limit fuel : nat) (n : NodeName) (state : ExtendedState)
    (s : Sys) : Generator Step :=
  match fuel with
  | O => ([], Raise (GraphRecursionError recursion_limit), s)
  | S fuel' =>
      match run_node n state s with
      | (Raise e, s1) => ([], Raise e, s1)
      | (Ok u, s1) =>
          let state' := apply_update state u in
          let step := {| step_node := n; step_update := u;
                         step_state := state'; step_sys := s1 |} in
          match route_after n state' s1 with
          | (Raise e, s2) => ([step], Raise e, s2)
          | (Ok r, s2) =>
              match fuel' with
              | O => ([step], Raise (GraphRecursionError recursion_limit), s2)
              | S _ =>
                  match r with
                  | END => ([step], Ok tt, s2)
                  | Goto n' =>
                      let '(steps, o, s3) :=
                        run_graph recursion_limit fuel' n' state' s2 in
                      (step :: steps, o, s3)
                  end
              end
          end
      end
  end.

(** The input [{"messages": [{"role": "user", "content": question}],
    "retry_count": 0}] written into the empty channels. *)
Definition initial_state (question : string) : ExtendedState :=
  apply_update {| messages := []; retry_count := 0 |}
               {| upd_messages := [HumanMessage question]; upd_retry_count := Some 0 |}.

(** [self.graph.stream(input, config={"recursion_limit": n})], entered at
    [START -> generate_query_or_respond]. *)
Definition graph_stream (g : CompiledGraph) (recursion_limit : nat) (question : string)
    (s : Sys) : Generator Step :=
  run_graph recursion_limit recursion_limit NGenerateQueryOrRespond (initial_state question) s.

(** ** The public methods *)

(** [config = {"recursion_limit": 50}] in [query] and [query_stream]. *)
Definition RECURSION_LIMIT : nat := 50.

Definition GRAPH_NOT_INITIALIZED : PyExn :=
  ValueError "Graph not initialized. Load vectorstore first.".

(** The answer [query] gives when the run was stopped by the step ceiling. *)
Definition QUERY_DEGRADED_ANSWER : string :=
  "I encountered an error while searching for an answer. The question might be too complex or outside our documentation scope. Please try:"
  +:+ NL +:+ "• Rephrasing your question"
  +:+ NL +:+ "• Asking about specific TaskFlow features"
  +:+ NL +:+ "• Breaking down complex questions".

(** The answer of the [error] event of [query_stream]. *)
Definition STREAM_DEGRADED_ANSWER : string :=
  "I encountered an error while searching. Please try rephrasing your question or asking about specific TaskFlow features.".

(** ["recursion" in str(e).lower()] *)
Definition mentions_recursion (e : PyExn) : bool :=
  contains "recursion" (lower (exn_msg e)).

Definition cache_info_of (bm : CacheMatch) : CacheInfo :=
  {| matched_question := prompt bm;
     distance := vector_distance bm;
     similarity := cosine_similarity bm |}.

(** Reading an attribute of [cache_results.best_match]. *)
Definition best_match_of (cache_results : CacheLookup) : M CacheMatch :=
  match best_match cache_results with
  | Some bm => ret bm
  | None => raise (AttributeError "'NoneType' object has no attribute 'response'")
  end.

(** [query(question, verbose)]; [verbose] only switches printing on. *)
Definition query (question : string) : M QueryResult :=
  (* Step 1: check semantic cache *)
  let* cache_results := on_cache (CallCacheCheck question 1) (cache_check ext question 1) in
  if hit cache_results then
    let* bm := best_match_of cache_results in
    ret {| answer := response bm; cache_hit := true; cache_info := Some (cache_info_of bm) |}
  else
    (* Step 2: cache miss *)
    let* me := get_self in
    match graph me with
    | None => raise GRAPH_NOT_INITIALIZED
    | Some g =>
        try_except
          (fun s =>
             (* the for loop keeps the last update in [result] *)
             let '(steps, o, s') := graph_stream g RECURSION_LIMIT question s in
             match o with
             | Raise e => (Raise e, s')
             | Ok _ =>
                 match last (map step_update steps) with
                 | None =>
                     (Raise {| exn_type := "TypeError";
                               exn_msg := "'NoneType' object is not subscriptable" |}, s')
                 | Some result =>
                     (let* m := last_item (upd_messages result) in
                      ret {| answer := content m; cache_hit := false; cache_info := None |}) s'
                 end
             end)
          (fun e =>
             if mentions_recursion e then
               ret {| answer := QUERY_DEGRADED_ANSWER; cache_hit := false; cache_info := None |}
             else raise e)
    end.

Definition add_to_cache (question answer : string) : M unit :=
  on_cache (CallCacheAddPair question answer) (cache_add_pair ext question answer).

(** The loop of [query_stream] over the chunks of the graph: each update is
    yielded as a [node_update] event, then [update["messages"][-1].content]
    is kept in [final_answer].  The right-hand result is the system state at
    which the subscript failed, when [messages] of an update is empty. *)
Fixpoint node_updates (steps : list Step) (final_answer : option string)
    : list StreamEvent * (option string + Sys) :=
  match steps with
  | [] => ([], inl final_answer)
  | st :: rest =>
      let ev := EvNodeUpdate (node_label (step_node st)) (upd_messages (step_update st)) in
      match last (upd_messages (step_update st)) with
      | None => ([ev], inr (step_sys st))
      | Some m =>
          let '(evs, r) := node_updates rest (Some (content m)) in
          (ev :: evs, r)
      end
  end.

Definition query_stream (question : string) (s : Sys) : Generator StreamEvent :=
  match on_cache (CallCacheCheck question 1) (cache_check ext question 1) s with
  | (Raise e, s1) => ([], Raise e, s1)
  | (Ok cache_results, s1) =>
      if hit cache_results then
        match best_match_of cache_results s1 with
        | (Ok bm, s2) => ([EvCacheHit (response bm) (cache_info_of bm)], Ok tt, s2)
        | (Raise e, s2) => ([], Raise e, s2)
        end
      else
        match graph (self s1) with
        | None => ([EvCacheMiss], Raise GRAPH_NOT_INITIALIZED, s1)
        | Some g =>
            let '(steps, o, s2) := graph_stream g RECURSION_LIMIT question s1 in
            let '(evs, r) := node_updates steps None in
            let body : outcome (option string) * Sys :=
              match r with
              | inr s_at => (Raise IndexError, s_at)
              | inl final_answer =>
                  match o with
                  | Ok _ => (Ok final_answer, s2)
                  | Raise e => (Raise e, s2)
                  end
              end in
            match body with
            | (Ok final_answer, s3) =>
                (EvCacheMiss :: evs ++ [EvComplete final_answer], Ok tt, s3)
            | (Raise e, s3) =>
                if mentions_recursion e then
                  (EvCacheMiss :: evs ++ [EvError STREAM_DEGRADED_ANSWER], Ok tt, s3)
                else (EvCacheMiss :: evs, Raise e, s3)
            end
        end
  end.

(** The tool [_setup_graph] creates: [retrieve_documents] over the retriever
    made with [k=4]. *)
Definition retrieve_documents_tool : RetrieverTool :=
  {| tool_name := "retrieve_documents"; tool_k := 4 |}.

(** [_setup_graph]: [retriever = self.doc_store.get_retriever(k=4)], which
    may raise; then [self.retriever_tool = retrieve_documents], the building
    of the workflow above, and [self.graph = workflow.compile(...)]. *)
Definition setup_graph : M unit :=
  let* _ := external (CallGetRetriever 4) (doc_store_get_retriever ext 4) in
  fun s => (Ok tt, {| self := {| cache := cache (self s);
                                 max_retries := max_retries (self s);
                                 graph := Some RagWorkflow;
                                 retriever_tool := Some retrieve_documents_tool |};
                      world := world s; calls := calls s |}).

Definition load_existing_vectorstore : M bool :=
  let* success := external CallDocStoreLoad (doc_store_load_existing ext) in
  if (success : bool) then
    let* _ := setup_graph in ret success
  else ret success.

Definition load_cache_pairs (pairs : list (string * string)) : M unit :=
  let pairs' := map (fun p => (Some (fst p), Some (snd p))) pairs in
  on_cache (CallCacheHydrate pairs') (cache_hydrate_from_pairs ext pairs').

Definition save_cache_to_file (filepath : string) : M unit :=
  on_cache (CallCacheSave filepath) (cache_save_to_file ext filepath).

Definition get_vectorstore_stats : M string :=
  external CallDocStoreStats (doc_store_get_stats ext).

(** *** Loading the cache from a CSV file *)

(** One row of [csv.DictReader] (Python's standard library): the fields are
    paired with the field names, a later duplicate name overwriting an earlier
    one; when the row is shorter than the header the remaining names get
    [restval = None]; when it is longer the surplus fields are stored under
    the key [restkey = None], which no string key reads and which is left out
    here. *)
Definition dict_row (fieldnames row : list string) : gmap string (option string) :=
  let d := foldl (fun d kv => <[fst kv := Some (snd kv)]> d) ∅ (zip fieldnames row) in
  foldl (fun d key => <[key := None]> d) d (drop (length row) fieldnames).

(** [csv.DictReader(f)]: the first row read gives the field names; every
    later row that is not blank gives one dict. *)
Definition DictReader (rows : list (list string)) : list (gmap string (option string)) :=
  match rows with
  | [] => []
  | fieldnames :: data =>
      map (dict_row fieldnames) (filter (fun r => r ≠ []) data)
  end.

(** [row[key]] *)
Definition getitem (row : gmap string (option string)) (key : string)
    : outcome (option string) :=
  match row !! key with
  | Some v => Ok v
  | None => Raise (KeyError key)
  end.

(** [for row in reader: pairs.append((row['question'], row['answer']))] *)
Fixpoint read_pairs (reader : list (gmap string (option string)))
    : outcome (list (option string * option string)) :=
  match reader with
  | [] => Ok []
  | row :: rest =>
      match getitem row "question" with
      | Raise e => Raise e
      | Ok q =>
          match getitem row "answer" with
          | Raise e => Raise e
          | Ok a =>
              match read_pairs rest with
              | Raise e => Raise e
              | Ok pairs => Ok ((q, a) :: pairs)
              end
          end
      end
  end.

Definition load_cache_from_file (filepath : string) : M unit :=
  let* rows := external (CallOpenCsv filepath) (csv_reader ext filepath) in
  let* pairs := (fun s => (read_pairs (DictReader rows), s)) in
  on_cache (CallCacheHydrate pairs) (cache_hydrate_from_pairs ext pairs).

(** *** Calls on the object *)

Inductive MethodCall :=
| call_load_existing_vectorstore
| call_load_cache_pairs (pairs : list (string * string))
| call_load_cache_from_file (filepath : string)
| call_save_cache_to_file (filepath : string)
| call_get_vectorstore_stats
| call_query (question : string)
| call_add_to_cache (question answer : string)
| call_query_stream (question : string).

(** The system state after a method call, however the call ended; a
    generator is run to its end. *)
Definition state_after (c : MethodCall) (s : Sys) : Sys :=
  match c with
  | call_load_existing_vectorstore => snd (load_existing_vectorstore s)
  | call_load_cache_pairs pairs => snd (load_cache_pairs pairs s)
  | call_load_cache_from_file filepath => snd (load_cache_from_file filepath s)
  | call_save_cache_to_file filepath => snd (save_cache_to_file filepath s)
  | call_get_vectorstore_stats => snd (get_vectorstore_stats s)
  | call_query question => snd (query question s)
  | call_add_to_cache question answer0 => snd (add_to_cache question answer0 s)
  | call_query_stream question => snd (query_stream question s)
  end.

(** The methods through which the cache is written. *)
Definition writes_cache (c : MethodCall) : bool :=
  match c with
  | call_add_to_cache _ _ | call_load_cache_pairs _ | call_load_cache_from_file _ => true
  | _ => false
  end.

End Chatbot.

(** ** A concrete semantic cache and scripted collaborators *)

Module Scenario.

(** Modelled from the spec: the [SemanticCache] class, which the module
    imports from [semantic_cache] and does not define.  The store is the list of (question,
    answer) pairs in insertion order; the embedding provider is fixed, so the
    distance between two texts stands for the distance between their
    embeddings.  [check] returns the closest entry as [best_match], with
    [hit] when its distance is at most the threshold, and no match on an
    empty store; of equally close entries the first inserted wins; it does
    not change the store.  [add_pair] appends an entry and
    [hydrate_from_pairs] adds its pairs in order (the spec gives it texts
    only; a pair with a missing text is refused here).  The similarity is
    reported as one minus the distance. *)
Definition SemanticCache : Type := list (string * string).

Fixpoint nearest (dist : string -> string -> Q) (question : string)
    (entries : list (string * string)) : option (string * string * Q) :=
  match entries with
  | [] => None
  | (q, a) :: rest =>
      let d := dist question q in
      match nearest dist question rest with
      | Some (q', a', d') => if Qle_bool d d' then Some (q, a, d) else Some (q', a', d')
      | None => Some (q, a, d)
      end
  end.

Definition check (dist : string -> string -> Q) (distance_threshold : Q)
    (question : string) (num_results : nat) (store : SemanticCache) : CacheLookup :=
  match nearest dist question store with
  | None => {| hit := false; best_match := None |}
  | Some (q, a, d) =>
      {| hit := Qle_bool d distance_threshold;
         best_match := Some {| prompt := q; response := a; vector_distance := d;
                               cosine_similarity := (1 - d)%Q |} |}
  end.

Definition add_pair (question answer0 : string) (store : SemanticCache) : SemanticCache :=
  (store ++ [(question, answer0)])%list.

Definition hydrate_from_pairs (pairs : list (option string * option string))
    (store : SemanticCache) : outcome unit * SemanticCache :=
  match mapM (fun p => match p with
                       | (Some q, Some a) => Some (q, a)
                       | _ => None
                       end) pairs with
  | Some entries => (Ok tt, (store ++ entries)%list)
  | None => (Raise {| exn_type := "TypeError"; exn_msg := "expected text" |}, store)
  end.

(** A distance for the scenarios: identical texts are at distance 0, all
    others at distance 1. *)
Definition exact_distance (a b : string) : Q :=
  if String.eqb a b then 0%Q else 1%Q.

(** Collaborators whose replies are fixed functions of their input; the world
    has no state. *)
Definition scripted
    (respond : list Message -> outcome (string * list ToolCall))
    (invoke : string -> outcome (string * list ToolCall))
    (grade : string -> outcome string)
    (retrieve : string -> outcome (list string)) : @Collaborators SemanticCache unit :=
  {| cache_check := fun q k c w => (Ok (check exact_distance (1 # 10) q k c), c, w);
     cache_add_pair := fun q a c w => (Ok tt, add_pair q a c, w);
     cache_hydrate_from_pairs := fun ps c w =>
       let '(r, c') := hydrate_from_pairs ps c in (r, c', w);
     cache_save_to_file := fun _ c w => (Ok tt, c, w);
     doc_store_load_existing := fun w => (Ok true, w);
     doc_store_get_stats := fun w => (Ok "", w);
     doc_store_get_retriever := fun _ w => (Ok tt, w);
     csv_reader := fun _ w => (Ok [], w);
     retriever_invoke := fun q w => (retrieve q, w);
     response_model_bind_tools_invoke := fun ms w => (respond ms, w);
     response_model_invoke := fun p w => (invoke p, w);
     grader_model_invoke := fun p w => (grade p, w);
     tool_error_text := fun _ => None |}.

Definition search_call (q : string) : ToolCall :=
  {| tc_name := "retrieve_documents"; tc_query := q; tc_id := "call_1" |}.

(** The response model always asks for retrieval. *)
Definition always_retrieve (ms : list Message) : outcome (string * list ToolCall) :=
  Ok ("", [search_call "taskflow"]).

(** The response model answers directly. *)
Definition answer_directly (ms : list Message) : outcome (string * list ToolCall) :=
  Ok ("TaskFlow is a project tool.", []).

Definition echo (p : string) : outcome (string * list ToolCall) := Ok ("reply", []).
Definition grade_no (p : string) : outcome string := Ok "no".
Definition grade_yes (p : string) : outcome string := Ok "yes".
Definition one_document (q : string) : outcome (list string) := Ok ["doc"].

(** A chatbot with the given cache content and retry budget, its graph set
    up or not. *)
Definition chatbot (store : SemanticCache) (budget : Z) (ready : bool)
    : @Sys SemanticCache unit :=
  {| self := {| cache := store; max_retries := budget;
                graph := if ready then Some RagWorkflow else None;
                retriever_tool := if ready then Some retrieve_documents_tool else None |};
     world := tt; calls := [] |}.

Definition taskflow_pair : string * string :=
  ("What is TaskFlow?", "TaskFlow is a project tool.").

(** The same collaborators, reading the given rows from any CSV file. *)
Definition with_csv_rows (rows : list (list string))
    (e : @Collaborators SemanticCache unit) : @Collaborators SemanticCache unit :=
  {| cache_check := cache_check e;
     cache_add_pair := cache_add_pair e;
     cache_hydrate_from_pairs := cache_hydrate_from_pairs e;
     cache_save_to_file := cache_save_to_file e;
     doc_store_load_existing := doc_store_load_existing e;
     doc_store_get_stats := doc_store_get_stats e;
     doc_store_get_retriever := doc_store_get_retriever e;
     csv_reader := fun _ w => (Ok rows, w);
     retriever_invoke := retriever_invoke e;
     response_model_bind_tools_invoke := response_model_bind_tools_invoke e;
     response_model_invoke := response_model_invoke e;
     grader_model_invoke := grader_model_invoke e;
     tool_error_text := tool_error_text e |}.

(** A failure of the model provider whose message happens to mention
    recursion. *)
Definition provider_failure : PyExn :=
  {| exn_type := "APIError";
     exn_msg := "upstream resolver refused recursion for api host" |}.

Definition model_unreachable (ms : list Message) : outcome (string * list ToolCall) :=
  Raise provider_failure.

(** A failure of the model provider with an ordinary message. *)
Definition provider_timeout : PyExn :=
  {| exn_type := "APITimeoutError"; exn_msg := "Request timed out." |}.

Definition model_times_out (ms : list Message) : outcome (string * list ToolCall) :=
  Raise provider_timeout.

(** The grader always answers "no" and the response model always asks for
    retrieval. *)
Definition never_relevant : @Collaborators SemanticCache unit :=
  scripted always_retrieve echo grade_no one_document.

(** The grader says "yes" on the first pass. *)
Definition relevant : @Collaborators SemanticCache unit :=
  scripted always_retrieve echo grade_yes one_document.

(** The response model answers the question itself. *)
Definition direct_answer : @Collaborators SemanticCache unit :=
  scripted answer_directly echo grade_no one_document.

(** The model provider fails, with and without "recursion" in the message. *)
Definition unreachable : @Collaborators SemanticCache unit :=
  scripted model_unreachable echo grade_no one_document.

Definition timing_out : @Collaborators SemanticCache unit :=
  scripted model_times_out echo grade_no one_document.

(** The grader model fails with a timeout. *)
Definition grade_times_out (p : string) : outcome string := Raise provider_timeout.

Definition grader_timing_out : @Collaborators SemanticCache unit :=
  scripted always_retrieve echo grade_times_out one_document.

(** The same collaborators, with a document store that loads but raises
    when asked for its retriever. *)
Definition store_failure : PyExn :=
  {| exn_type := "ValueError"; exn_msg := "Vector store not initialized." |}.

Definition without_retriever
    (e : @Collaborators SemanticCache unit) : @Collaborators SemanticCache unit :=
  {| cache_check := cache_check e;
     cache_add_pair := cache_add_pair e;
     cache_hydrate_from_pairs := cache_hydrate_from_pairs e;
     cache_save_to_file := cache_save_to_file e;
     doc_store_load_existing := doc_store_load_existing e;
     doc_store_get_stats := doc_store_get_stats e;
     doc_store_get_retriever := fun _ w => (Raise store_failure, w);
     csv_reader := csv_reader e;
     retriever_invoke := retriever_invoke e;
     response_model_bind_tools_invoke := response_model_bind_tools_invoke e;
     response_model_invoke := response_model_invoke e;
     grader_model_invoke := grader_model_invoke e;
     tool_error_text := tool_error_text e |}.

(** A cache file with a row of three fields, a blank row and a regular row
    under a two-column header. *)
Definition ragged_rows : list (list string) :=
  [["question"; "answer"]; ["q1"; "a1"; "stray"]; []; ["q2"; "a2"]].

Definition degraded : QueryResult :=
  {| answer := QUERY_DEGRADED_ANSWER; cache_hit := false; cache_info := None |}.

Definition taskflow_hit : QueryResult :=
  {| answer := "TaskFlow is a project tool."; cache_hit := true;
     cache_info := Some {| matched_question := "What is TaskFlow?";
                           distance := 0; similarity := 1 - 0 |} |}.

End Scenario.

(** ** Vocabulary of the properties *)

Section Vocabulary.
Context {Cache World : Type}.

(** The three components of a consumed generator. *)
Definition yielded {A} (g : @Generator Cache World A) : list A := fst (fst g).
Definition ending {A} (g : @Generator Cache World A) : outcome unit := snd (fst g).
Definition final_sys {A} (g : @Generator Cache World A) : @Sys Cache World := snd g.

(** The node names of a run, in order. *)
Definition nodes_of (steps : list (@Step Cache World)) : list NodeName :=
  map step_node steps.

(** The number of rewrite cycles in a run. *)
Definition rewrites (steps : list (@Step Cache World)) : nat :=
  length (filter (fun n => n = NRewriteQuestion) (nodes_of steps)).

Definition is_grader_call (c : ExternalCall) : bool :=
  match c with CallGraderModel _ => true | _ => false end.

(** The number of invocations of the grader model recorded in a log. *)
Definition grader_calls (log : list ExternalCall) : nat :=
  length (filter (fun c => is_grader_call c = true) log).

(** The event [query_stream] yields for one step of the graph. *)
Definition node_update_event (st : @Step Cache World) : StreamEvent :=
  EvNodeUpdate (node_label (step_node st)) (upd_messages (step_update st)).

(** The state in which the graph starts after the cache check of
    [query]/[query_stream]. *)
Definition after_check (ext : @Collaborators Cache World) (question : string)
    (s : @Sys Cache World) : @Sys Cache World :=
  snd (on_cache (CallCacheCheck question 1) (cache_check ext question 1) s).

(** Assumptions on the collaborators under which a run is driven by the
    grader alone. *)
Definition always_requests_retrieval (ext : @Collaborators Cache World) : Prop :=
  forall ms w, exists text tc tcs w',
    response_model_bind_tools_invoke ext ms w = (Ok (text, tc :: tcs), w').

Definition retriever_never_fails (ext : @Collaborators Cache World) : Prop :=
  forall q w, exists docs w', retriever_invoke ext q w = (Ok docs, w').

Definition response_model_never_fails (ext : @Collaborators Cache World) : Prop :=
  forall p w, exists reply w', response_model_invoke ext p w = (Ok reply, w').

Definition grader_never_yes (ext : @Collaborators Cache World) : Prop :=
  forall p w, exists score w',
    grader_model_invoke ext p w = (Ok score, w') /\ score <> "yes".

(** The node sequence of a run that rewrites [k] times and then falls
    back. *)
Fixpoint retry_cycles (k : nat) : list NodeName :=
  match k with
  | O => [NGenerateQueryOrRespond; NRetrieve; NGenerateFallback]
  | S k' => NGenerateQueryOrRespond :: NRetrieve :: NRewriteQuestion :: retry_cycles k'
  end.

(** The spec's retry bound, read on one run: exactly [max_retries] rewrites,
    then the fallback node ends the run. *)
Definition reaches_fallback_after_budget (ext : @Collaborators Cache World)
    (question : string) (s : @Sys Cache World) : Prop :=
  let run := graph_stream ext RagWorkflow RECURSION_LIMIT question s in
  Z.of_nat (rewrites (yielded run)) = max_retries (self s)
  /\ last (nodes_of (yielded run)) = Some NGenerateFallback.

(** [SemanticCache.check] and [SemanticCache.save_to_file] leave the store as
    it is. *)
Definition check_is_read_only (ext : @Collaborators Cache World) : Prop :=
  forall q k c w, snd (fst (cache_check ext q k c w)) = c.

Definition save_is_read_only (ext : @Collaborators Cache World) : Prop :=
  forall f c w, snd (fst (cache_save_to_file ext f c w)) = c.

(** The system state once the cache check has returned [c'] and [w']. *)
Definition checked (s : @Sys Cache World) (question : string) (c' : Cache) (w' : World) : @Sys Cache World :=
  {| self := {| cache := c'; max_retries := max_retries (self s); graph := graph (self s);
                retriever_tool := retriever_tool (self s) |};
     world := w';
     calls := calls s ++ [CallCacheCheck question 1] |}.

(** A computation that leaves the chatbot object as it is. *)
Definition keeps_self {A} (c : @M Cache World A) : Prop :=
  forall s, self (snd (c s)) = self s.

(** The calls the workflow may make: the retriever and the two models. *)
Definition is_workflow_call (c : ExternalCall) : Prop :=
  match c with
  | CallRetriever _ | CallResponseModelWithTools _ | CallResponseModel _
  | CallGraderModel _ => True
  | _ => False
  end.

(** A computation whose calls all satisfy [P]. *)
Definition logs_only (P : ExternalCall -> Prop) {A} (c : @M Cache World A) : Prop :=
  forall s, exists l, calls (snd (c s)) = (calls s ++ l)%list /\ Forall P l.

(** A computation that makes no call of the grader model. *)
Definition no_grader_call {A} (c : @M Cache World A) : Prop :=
  forall s, grader_calls (calls (snd (c s))) = grader_calls (calls s).

(** The largest number of steps a run can still make when it is about to
    enter node [n] in [state], with a retry budget of [budget]. *)
Definition steps_needed (budget : Z) (n : NodeName) (state : ExtendedState) : nat :=
  let remaining := Z.to_nat (budget - retry_count state) in
  match n with
  | NGenerateQueryOrRespond => 3 * remaining + 3
  | NRetrieve => 3 * remaining + 2
  | NRewriteQuestion => 3 * remaining + 1
  | NGenerateAnswer | NGenerateFallback => 1
  end.

(** The rows of a CSV file holding the given pairs under the header
    [question,answer]. *)
Definition rows_of_pairs (pairs : list (string * string)) : list (list string) :=
  ["question"; "answer"] :: map (fun p => [fst p; snd p]) pairs.


End Vocabulary.

(** * Properties *)

Section Properties.
Context {Cache World : Type} (ext : @Collaborators Cache World).

Local Abbreviation Sys := (@Sys Cache World).
Local Open Scope list_scope.

Ltac unfold_monad :=
  cbv beta iota delta [bind ret raise get_self try_except external on_cache
                       first_item last_item] in *.

(** ** The grading step *)

Lemma first_item_lookup {A} (l : list A) (x : A) (s : Sys) :
  l !! 0%nat = Some x -> first_item l s = (Ok x, s).
Proof. destruct l as [|y l]; simpl; intros H; [discriminate | by inversion H]. Qed.

Lemma last_item_last {A} (l : list A) (x : A) (s : Sys) :
  last l = Some x -> last_item l s = (Ok x, s).
Proof. intros H. unfold last_item. by rewrite H. Qed.

(** The guard of [grade_documents]: with the budget used up, the decision is
    the fallback and nothing is called. *)
Lemma grade_documents_budget_spent (state : ExtendedState) (s : Sys) :
  messages state <> [] ->
  max_retries (self s) <= retry_count state ->
  grade_documents ext state s = (Ok generate_fallback_route, s).
Proof.
  intros Hne Hle. unfold grade_documents.
  destruct (messages state) as [|m0 l] eqn:E; [done|].
  destruct (last (m0 :: l)) as [ml|] eqn:El.
  2:{ apply last_None in El. discriminate. }
  unfold_monad. rewrite El.
  destruct (Z.leb_spec (max_retries (self s)) (retry_count state)); [done | lia].
Qed.

(** Substrings of a concatenation. *)
Lemma contains_unfold (needle t : string) :
  contains needle t
  = is_prefix needle t || match t with
                          | EmptyString => false
                          | String _ t' => contains needle t'
                          end.
Proof. by destruct t. Qed.

Lemma append_cons (a : ascii) (t1 t2 : string) :
  String a t1 +:+ t2 = String a (t1 +:+ t2).
Proof. reflexivity. Qed.

Lemma is_prefix_app (needle rest : string) : is_prefix needle (needle +:+ rest) = true.
Proof.
  induction needle as [|a needle IH]; [by destruct rest|].
  rewrite append_cons. cbn [is_prefix]. by rewrite Ascii.eqb_refl.
Qed.

Lemma is_prefix_refl (needle : string) : is_prefix needle needle = true.
Proof.
  induction needle as [|a needle IH]; [done|].
  cbn [is_prefix]. by rewrite Ascii.eqb_refl.
Qed.

Lemma contains_refl (needle : string) : contains needle needle = true.
Proof. by rewrite contains_unfold, is_prefix_refl. Qed.

Lemma contains_prefix (needle rest : string) : contains needle (needle +:+ rest) = true.
Proof. by rewrite contains_unfold, is_prefix_app. Qed.

Lemma contains_app_r (needle before t : string) :
  contains needle t = true -> contains needle (before +:+ t) = true.
Proof.
  intros H. induction before as [|a before IH]; [done|].
  rewrite append_cons, contains_unfold, IH. apply orb_true_r.
Qed.

(** Below the budget, [grade_documents] is one call of the grader model on
    the prompt made of message 0 and the last message. *)
Lemma grade_documents_calls_grader
    (state : ExtendedState) (s : Sys) (m0 mlast : Message) :
  messages state !! 0%nat = Some m0 ->
  last (messages state) = Some mlast ->
  retry_count state < max_retries (self s) ->
  grade_documents ext state s =
    bind (external (CallGraderModel (GRADE_PROMPT (content m0) (content mlast)))
                   (grader_model_invoke ext (GRADE_PROMPT (content m0) (content mlast))))
         (fun score => ret (if String.eqb score "yes" then generate_answer_route
                            else rewrite_question_route)) s.
Proof.
  intros H0 Hl Hlt.
  unfold grade_documents, bind at 1.
  rewrite (first_item_lookup _ _ _ H0). unfold bind at 1.
  rewrite (last_item_last _ _ _ Hl). unfold bind at 1, get_self.
  destruct (Z.leb_spec (max_retries (self s)) (retry_count state)); [lia|].
  unfold bind. destruct (external _ _ s) as [[score|e] s1]; [|done].
  by destruct (String.eqb score "yes").
Qed.

(** C7. When the grading step runs with [retry_count < max_retries], it
    invokes the grader model once, on the prompt built from the content of
    message 0 (the original question) and of the last message (the context),
    a text that holds both of them;
    the decision depends on the verdict only: "yes" gives [generate_answer]
    and the edge to the [generate_answer] node, any other verdict gives
    [rewrite_question] and the edge to the [rewrite_question] node; a failure
    of the grader is raised. *)
Theorem grade_documents_below_budget
    (state : ExtendedState) (s : Sys) (m0 mlast : Message) :
  messages state !! 0%nat = Some m0 ->
  last (messages state) = Some mlast ->
  retry_count state < max_retries (self s) ->
  let prompt_text := GRADE_PROMPT (content m0) (content mlast) in
  let verdict := fst (grader_model_invoke ext prompt_text (world s)) in
  let s' := {| self := self s;
               world := snd (grader_model_invoke ext prompt_text (world s));
               calls := calls s ++ [CallGraderModel prompt_text] |} in
  grade_documents ext state s =
    (match verdict with
     | Ok score => Ok (if String.eqb score "yes" then generate_answer_route
                       else rewrite_question_route)
     | Raise e => Raise e
     end, s')
  /\ route_after ext NRetrieve state s =
    (match verdict with
     | Ok score => Ok (Goto (if String.eqb score "yes" then NGenerateAnswer
                             else NRewriteQuestion))
     | Raise e => Raise e
     end, s')
  /\ contains (content m0) prompt_text = true
  /\ contains (content mlast) prompt_text = true.
Proof.
  intros H0 Hl Hlt prompt_text verdict s'.
  pose proof (grade_documents_calls_grader state s m0 mlast H0 Hl Hlt) as Hg.
  assert (Hparts : contains (content m0) prompt_text = true
                   /\ contains (content mlast) prompt_text = true).
  { subst prompt_text. unfold GRADE_PROMPT. split.
    - do 11 apply contains_app_r. apply contains_prefix.
    - do 6 apply contains_app_r. apply contains_prefix. }
  unfold route_after. unfold bind at 1. rewrite Hg.
  subst verdict s' prompt_text. unfold_monad.
  destruct (grader_model_invoke ext _ (world s)) as [[score|e] w]; cbn [fst snd]; [|done].
  by destruct (String.eqb score "yes").
Qed.

(** ** The cache check in front of the workflow *)

Lemma on_cache_check_eq (s : Sys) (question : string) r c' w' :
  cache_check ext question 1 (cache (self s)) (world s) = (r, c', w') ->
  on_cache (CallCacheCheck question 1) (cache_check ext question 1) s
  = (r, checked s question c' w').
Proof. intros H. unfold on_cache. by rewrite H. Qed.

Lemma after_check_eq (s : Sys) (question : string) r c' w' :
  cache_check ext question 1 (cache (self s)) (world s) = (r, c', w') ->
  after_check ext question s = checked s question c' w'.
Proof. intros H. unfold after_check. by rewrite (on_cache_check_eq _ _ _ _ _ H). Qed.

Lemma query_hit_eq (s : Sys) (question : string) lookup c' w' bm :
  cache_check ext question 1 (cache (self s)) (world s) = (Ok lookup, c', w') ->
  hit lookup = true ->
  best_match lookup = Some bm ->
  query ext question s =
    (Ok {| answer := response bm; cache_hit := true;
           cache_info := Some {| matched_question := prompt bm;
                                 distance := vector_distance bm;
                                 similarity := cosine_similarity bm |} |},
     checked s question c' w').
Proof.
  intros Hc Hh Hb. unfold query, bind at 1.
  rewrite (on_cache_check_eq _ _ _ _ _ Hc), Hh.
  unfold best_match_of. rewrite Hb. reflexivity.
Qed.

Lemma query_stream_hit_eq (s : Sys) (question : string) lookup c' w' bm :
  cache_check ext question 1 (cache (self s)) (world s) = (Ok lookup, c', w') ->
  hit lookup = true ->
  best_match lookup = Some bm ->
  query_stream ext question s =
    ([EvCacheHit (response bm)
        {| matched_question := prompt bm; distance := vector_distance bm;
           similarity := cosine_similarity bm |}],
     Ok tt, checked s question c' w').
Proof.
  intros Hc Hh Hb. unfold query_stream.
  rewrite (on_cache_check_eq _ _ _ _ _ Hc), Hh.
  unfold best_match_of. rewrite Hb. reflexivity.
Qed.

(** On a miss, [query] is the initialization check followed by the guarded
    run of the graph. *)
Lemma query_miss_eq (s : Sys) (question : string) lookup c' w' :
  cache_check ext question 1 (cache (self s)) (world s) = (Ok lookup, c', w') ->
  hit lookup = false ->
  query ext question s =
    match graph (self s) with
    | None => (Raise GRAPH_NOT_INITIALIZED, checked s question c' w')
    | Some g =>
        let run := graph_stream ext g RECURSION_LIMIT question (checked s question c' w') in
        let degraded :=
          {| answer := QUERY_DEGRADED_ANSWER; cache_hit := false; cache_info := None |} in
        match ending run with
        | Raise e =>
            if mentions_recursion e then (Ok degraded, final_sys run)
            else (Raise e, final_sys run)
        | Ok _ =>
            match last (map step_update (yielded run)) with
            | None => (Raise {| exn_type := "TypeError";
                                exn_msg := "'NoneType' object is not subscriptable" |},
                       final_sys run)
            | Some result =>
                match last (upd_messages result) with
                | Some m => (Ok {| answer := content m; cache_hit := false;
                                   cache_info := None |}, final_sys run)
                | None => (Raise IndexError, final_sys run)
                end
            end
        end
    end.
Proof.
  intros Hc Hh. unfold query, bind at 1.
  rewrite (on_cache_check_eq _ _ _ _ _ Hc), Hh.
  unfold bind at 1, get_self. cbn [self graph checked].
  destruct (graph (self s)) as [g|]; [|reflexivity].
  unfold try_except, yielded, ending, final_sys.
  destruct (graph_stream ext g RECURSION_LIMIT question _) as [[steps o] s2].
  cbn [fst snd].
  destruct o as [[]|e].
  - destruct (last (map step_update steps)) as [result|]; [|done].
    unfold bind, last_item.
    destruct (last (upd_messages result)) as [m|]; [done|].
    unfold raise. by cbn.
  - unfold ret, raise. by destruct (mentions_recursion e).
Qed.


(** C6, as the code has it.  When the graph has not been set up and the
    cache check reports a miss, [query] raises the [ValueError] "Graph not
    initialized" right after the cache check: nothing else has been called
    and nothing is retried; [query_stream] yields the [cache_miss] event and
    raises the same error. *)
Theorem query_uninitialized_on_miss
    (s : Sys) (question : string) (lookup : CacheLookup) (c' : Cache) (w' : World) :
  graph (self s) = None ->
  cache_check ext question 1 (cache (self s)) (world s) = (Ok lookup, c', w') ->
  hit lookup = false ->
  let s1 := {| self := {| cache := c'; max_retries := max_retries (self s);
                          graph := None;
                          retriever_tool := retriever_tool (self s) |};
               world := w';
               calls := calls s ++ [CallCacheCheck question 1] |} in
  query ext question s
    = (Raise (ValueError "Graph not initialized. Load vectorstore first."), s1)
  /\ query_stream ext question s
    = ([EvCacheMiss], Raise (ValueError "Graph not initialized. Load vectorstore first."), s1).
Proof.
  intros Hg Hc Hh s1. split.
  - rewrite (query_miss_eq _ _ _ _ _ Hc Hh), Hg.
    unfold checked, s1. by rewrite Hg.
  - unfold query_stream. rewrite (on_cache_check_eq _ _ _ _ _ Hc), Hh.
    cbn [self graph checked]. rewrite Hg. unfold checked, s1. by rewrite Hg.
Qed.

(** C10. With the graph not set up, a question on which the cache check
    reports a hit is still answered from the cache, by [query] and by
    [query_stream], because the check comes first; the "Graph not
    initialized" error comes out of either method only when the check
    reported a miss. *)
Theorem cache_hit_before_initialization
    (s : Sys) (question : string) (lookup : CacheLookup) (c' : Cache) (w' : World) :
  graph (self s) = None ->
  cache_check ext question 1 (cache (self s)) (world s) = (Ok lookup, c', w') ->
  (hit lookup = true -> forall bm, best_match lookup = Some bm ->
     fst (query ext question s)
       = Ok {| answer := response bm; cache_hit := true;
               cache_info := Some (cache_info_of bm) |}
     /\ yielded (query_stream ext question s)
          = [EvCacheHit (response bm) (cache_info_of bm)]
     /\ ending (query_stream ext question s) = Ok tt)
  /\ (fst (query ext question s) = Raise GRAPH_NOT_INITIALIZED -> hit lookup = false)
  /\ (ending (query_stream ext question s) = Raise GRAPH_NOT_INITIALIZED ->
      hit lookup = false).
Proof.
  intros Hg Hc. split; [|split].
  - intros Hh bm Hb.
    rewrite (query_hit_eq _ _ _ _ _ _ Hc Hh Hb),
            (query_stream_hit_eq _ _ _ _ _ _ Hc Hh Hb).
    done.
  - destruct (hit lookup) eqn:Hh; [|done]. intros Hq.
    unfold query, bind at 1 in Hq.
    rewrite (on_cache_check_eq _ _ _ _ _ Hc), Hh in Hq.
    unfold bind, best_match_of in Hq.
    destruct (best_match lookup); cbn in Hq; discriminate.
  - destruct (hit lookup) eqn:Hh; [|done]. intros Hq.
    unfold query_stream, ending in Hq.
    rewrite (on_cache_check_eq _ _ _ _ _ Hc), Hh in Hq.
    unfold best_match_of in Hq.
    destruct (best_match lookup); cbn in Hq; discriminate.
Qed.

(** ** Steps of the workflow *)

(** *** No node touches the chatbot object *)

Lemma keeps_self_ret {A} (a : A) : keeps_self (ret (Cache:=Cache) (World:=World) a).
Proof. by intros s. Qed.

Lemma keeps_self_raise {A} (e : PyExn) :
  keeps_self (raise (Cache:=Cache) (World:=World) (A:=A) e).
Proof. by intros s. Qed.

Lemma keeps_self_get_self : keeps_self (get_self (Cache:=Cache) (World:=World)).
Proof. by intros s. Qed.

Lemma keeps_self_external {A} c (f : World -> outcome A * World) :
  keeps_self (external (Cache:=Cache) c f).
Proof. intros s. unfold external. by destruct (f (world s)). Qed.

Lemma keeps_self_bind {A B} (c : @M Cache World A) (k : A -> @M Cache World B) :
  keeps_self c -> (forall a, keeps_self (k a)) -> keeps_self (bind c k).
Proof.
  intros Hc Hk s. unfold bind. specialize (Hc s).
  destruct (c s) as [[a|e] s1]; cbn in *; [|done].
  by rewrite Hk.
Qed.

Lemma keeps_self_try_except {A} (c : @M Cache World A) (h : PyExn -> @M Cache World A) :
  keeps_self c -> (forall e, keeps_self (h e)) -> keeps_self (try_except c h).
Proof.
  intros Hc Hh s. unfold try_except. specialize (Hc s).
  destruct (c s) as [[a|e] s1]; cbn in *; [done|].
  by rewrite Hh.
Qed.

Ltac keeps_self_tac :=
  repeat first
    [ apply keeps_self_ret | apply keeps_self_raise | apply keeps_self_get_self
    | apply keeps_self_external
    | apply keeps_self_bind; [|intros ?]
    | apply keeps_self_try_except; [|intros ?]
    | match goal with
      | |- keeps_self (if ?b then _ else _) => destruct b
      | |- keeps_self (match ?x with _ => _ end) => destruct x
      end ].

Lemma keeps_self_run_tool_calls tcs : keeps_self (run_tool_calls ext tcs).
Proof.
  induction tcs as [|tc tcs IH]; cbn [run_tool_calls]; [apply keeps_self_ret|].
  apply keeps_self_bind.
  - unfold run_tool_call, retrieve_documents. keeps_self_tac.
  - intros m. apply keeps_self_bind; [exact IH|]. intros ms. apply keeps_self_ret.
Qed.

Lemma keeps_self_grade_documents state : keeps_self (grade_documents ext state).
Proof. unfold grade_documents, first_item, last_item. keeps_self_tac. Qed.

Lemma keeps_self_run_node n state : keeps_self (run_node ext n state).
Proof.
  destruct n; cbn [run_node];
    unfold generate_query_or_respond, tool_node, rewrite_question, generate_answer,
           generate_fallback, first_item, last_item.
  2:{ destruct (last (messages state)) as [[| |]|]; try apply keeps_self_raise.
      apply keeps_self_bind; [apply keeps_self_run_tool_calls|].
      intros ms. apply keeps_self_ret. }
  all: keeps_self_tac.
Qed.

Lemma keeps_self_route_after n state : keeps_self (route_after ext n state).
Proof.
  destruct n; cbn [route_after]; try apply keeps_self_ret.
  - unfold tools_condition. keeps_self_tac.
  - apply keeps_self_bind; [apply keeps_self_grade_documents|].
    intros d. apply keeps_self_ret.
Qed.

Lemma keeps_self_graph_step n state : keeps_self (graph_step ext n state).
Proof.
  unfold graph_step. apply keeps_self_bind; [apply keeps_self_run_node|].
  intros u. apply keeps_self_bind; [apply keeps_self_route_after|].
  intros r. apply keeps_self_ret.
Qed.

Lemma run_node_self n state s r s1 :
  run_node ext n state s = (r, s1) -> self s1 = self s.
Proof. intros H. pose proof (keeps_self_run_node n state s) as K. by rewrite H in K. Qed.

Lemma route_after_self n state s r s1 :
  route_after ext n state s = (r, s1) -> self s1 = self s.
Proof. intros H. pose proof (keeps_self_route_after n state s) as K. by rewrite H in K. Qed.

Lemma graph_step_self n state s r s1 :
  graph_step ext n state s = (r, s1) -> self s1 = self s.
Proof. intros H. pose proof (keeps_self_graph_step n state s) as K. by rewrite H in K. Qed.

(** A node and its edge that both return make a step. *)
Lemma graph_step_of_parts n state s u s1 r s2 :
  run_node ext n state s = (Ok u, s1) ->
  route_after ext n (apply_update state u) s1 = (Ok r, s2) ->
  graph_step ext n state s = (Ok (u, apply_update state u, r), s2).
Proof. intros En Er. unfold graph_step, bind. by rewrite En, Er. Qed.

(** The cases of one turn of the step loop. *)
Ltac run_graph_cases n state s u s1 r s2 En Er :=
  cbn [run_graph];
  destruct (run_node ext n state s) as [[u|?e] s1] eqn:En;
  [ destruct (route_after ext n (apply_update state u) s1) as [[r|?e] s2] eqn:Er | ].

(** Every system state of a run, and its final one, has the chatbot object
    of the start. *)
Lemma run_graph_self limit fuel n state s :
  Forall (fun st => self (step_sys st) = self s) (yielded (run_graph ext limit fuel n state s))
  /\ self (final_sys (run_graph ext limit fuel n state s)) = self s.
Proof.
  revert n state s. induction fuel as [|fuel IH]; intros n state s.
  { split; [constructor | done]. }
  run_graph_cases n state s u s1 r s2 En Er.
  3:{ split; [constructor|]. exact (run_node_self _ _ _ _ _ En). }
  all: pose proof (run_node_self _ _ _ _ _ En) as Hs1;
       pose proof (route_after_self _ _ _ _ _ Er) as Hs2.
  2:{ unfold yielded, final_sys. cbn [fst snd]. split; [|congruence].
      by repeat constructor. }
  destruct fuel as [|fuel'].
  { unfold yielded, final_sys. cbn [fst snd]. split; [|congruence].
    by repeat constructor. }
  destruct r as [n'|].
  - specialize (IH n' (apply_update state u) s2).
    destruct (run_graph ext limit (S fuel') n' (apply_update state u) s2) as [[steps o] s3].
    unfold yielded, final_sys in *. cbn [fst snd] in *. destruct IH as [IH1 IH2].
    split; [|congruence].
    constructor; [done|].
    eapply Forall_impl; [exact IH1|]. cbn. intros st Hst. congruence.
  - unfold yielded, final_sys. cbn [fst snd]. split; [|congruence].
    by repeat constructor.
Qed.

(** *** What a successful step looks like *)

Lemma run_tool_calls_length tcs s ms s1 :
  run_tool_calls ext tcs s = (Ok ms, s1) -> length ms = length tcs.
Proof.
  revert s ms s1. induction tcs as [|tc tcs IH]; intros s ms s1; cbn [run_tool_calls].
  - unfold ret. intros H. by inversion H.
  - unfold bind at 1. destruct (run_tool_call ext tc s) as [[m|e] s2]; [|discriminate].
    unfold bind at 1. destruct (run_tool_calls ext tcs s2) as [[ms'|e] s3] eqn:E;
      [|discriminate].
    unfold ret. intros H. inversion H; subst. cbn. f_equal. eauto.
Qed.

(** [grade_documents] chooses the rewrite only below the retry budget. *)
Lemma grade_documents_rewrite_below_budget state s s1 :
  grade_documents ext state s = (Ok rewrite_question_route, s1) ->
  retry_count state < max_retries (self s).
Proof.
  unfold grade_documents. unfold_monad.
  destruct (messages state) as [|m0 l]; [discriminate|].
  destruct (last (m0 :: l)) as [ml|]; [|discriminate].
  destruct (Z.leb_spec (max_retries (self s)) (retry_count state)); [discriminate|].
  done.
Qed.

Lemma graph_step_ok n state s u state' r s1 :
  graph_step ext n state s = (Ok (u, state', r), s1) ->
  state' = apply_update state u /\
  match n with
  | NGenerateQueryOrRespond =>
      exists text tcs,
        u = {| upd_messages := [AIMessage text tcs]; upd_retry_count := None |}
        /\ r = match tcs with [] => END | _ :: _ => Goto NRetrieve end
  | NRetrieve =>
      upd_retry_count u = None
      /\ (exists text tcs, last (messages state) = Some (AIMessage text tcs)
                           /\ length (upd_messages u) = length tcs)
      /\ (r = Goto NGenerateAnswer \/ r = Goto NGenerateFallback
          \/ (r = Goto NRewriteQuestion /\ retry_count state < max_retries (self s)))
  | NRewriteQuestion =>
      exists text,
        u = {| upd_messages := [HumanMessage text]; upd_retry_count := Some 1 |}
        /\ r = Goto NGenerateQueryOrRespond
  | NGenerateAnswer | NGenerateFallback =>
      exists text tcs,
        u = {| upd_messages := [AIMessage text tcs]; upd_retry_count := None |}
        /\ r = END
  end.
Proof.
  destruct n; unfold graph_step; cbn [run_node route_after].
  - (* generate_query_or_respond *)
    unfold generate_query_or_respond, tools_condition. unfold_monad.
    destruct (response_model_bind_tools_invoke ext _ _) as [[[text tcs]|e] w];
      [|discriminate].
    cbn [apply_update messages upd_messages fst snd]. rewrite last_snoc.
    destruct tcs as [|tc tcs]; intros H; inversion H; subst; split; eauto.
  - (* retrieve, then grade_documents *)
    unfold tool_node.
    destruct (last (messages state)) as [[t|t tcs|t i]|] eqn:El;
      try (unfold bind, raise; discriminate).
    unfold bind at 1. unfold bind at 1.
    destruct (run_tool_calls ext tcs s) as [[ms|e] s2] eqn:Et; [|discriminate].
    pose proof (keeps_self_run_tool_calls tcs s) as Hs2. rewrite Et in Hs2. cbn in Hs2.
    unfold ret at 1. unfold bind at 1. unfold bind at 1.
    destruct (grade_documents ext _ s2) as [[d|e] s3] eqn:Eg; [|discriminate].
    unfold ret. intros H. inversion H; subst. split; [done|].
    split; [done|]. split.
    { exists t, tcs. split; [done|]. cbn. eapply run_tool_calls_length; eauto. }
    destruct d; auto.
    right; right. split; [done|].
    apply grade_documents_rewrite_below_budget in Eg.
    cbn in Eg. rewrite Z.add_0_r in Eg. by rewrite <- Hs2.
  - (* rewrite_question *)
    unfold rewrite_question. unfold_monad.
    destruct (messages state) as [|m0 l]; [discriminate|].
    destruct (response_model_invoke ext _ _) as [[[text tcs]|e] w]; [|discriminate].
    intros H; inversion H; subst. split; eauto.
  - (* generate_answer *)
    unfold generate_answer. unfold_monad.
    destruct (messages state) as [|m0 l]; [discriminate|].
    destruct (last (m0 :: l)); [|discriminate].
    destruct (response_model_invoke ext _ _) as [[[text tcs]|e] w]; [|discriminate].
    intros H; inversion H; subst. split; eauto.
  - (* generate_fallback *)
    unfold generate_fallback. unfold_monad.
    destruct (messages state) as [|m0 l]; [discriminate|].
    destruct (response_model_invoke ext _ _) as [[[text tcs]|e] w]; [|discriminate].
    intros H; inversion H; subst. split; eauto.
Qed.

(** What the update of a node that returned looks like. *)
Lemma run_node_ok n state s u s1 :
  run_node ext n state s = (Ok u, s1) ->
  match n with
  | NGenerateQueryOrRespond | NGenerateAnswer | NGenerateFallback =>
      exists text tcs,
        u = {| upd_messages := [AIMessage text tcs]; upd_retry_count := None |}
  | NRetrieve =>
      upd_retry_count u = None
      /\ (exists text tcs, last (messages state) = Some (AIMessage text tcs)
                           /\ length (upd_messages u) = length tcs)
  | NRewriteQuestion =>
      exists text,
        u = {| upd_messages := [HumanMessage text]; upd_retry_count := Some 1 |}
  end.
Proof.
  destruct n; cbn [run_node].
  - unfold generate_query_or_respond. unfold_monad.
    destruct (response_model_bind_tools_invoke ext _ _) as [[[text tcs]|e] w];
      [|discriminate].
    intros H; inversion H; subst. eauto.
  - unfold tool_node.
    destruct (last (messages state)) as [[t|t tcs|t i]|] eqn:El;
      try (unfold raise; discriminate).
    unfold bind.
    destruct (run_tool_calls ext tcs s) as [[ms|e] s2] eqn:Et; [|discriminate].
    unfold ret. intros H. inversion H; subst. split; [done|].
    exists t, tcs. split; [done|]. cbn. eapply run_tool_calls_length; eauto.
  - unfold rewrite_question. unfold_monad.
    destruct (messages state) as [|m0 l]; [discriminate|].
    destruct (response_model_invoke ext _ _) as [[[text tcs]|e] w]; [|discriminate].
    intros H; inversion H; subst. eauto.
  - unfold generate_answer. unfold_monad.
    destruct (messages state) as [|m0 l]; [discriminate|].
    destruct (last (m0 :: l)); [|discriminate].
    destruct (response_model_invoke ext _ _) as [[[text tcs]|e] w]; [|discriminate].
    intros H; inversion H; subst. eauto.
  - unfold generate_fallback. unfold_monad.
    destruct (messages state) as [|m0 l]; [discriminate|].
    destruct (response_model_invoke ext _ _) as [[[text tcs]|e] w]; [|discriminate].
    intros H; inversion H; subst. eauto.
Qed.

(** *** Induction along a run *)

(** A property of the steps of a run follows from a condition on the entry of
    each node, under which the update of the node has the property and which
    every step that goes on re-establishes for the next node. *)
Lemma run_graph_Forall (Inv : NodeName -> ExtendedState -> Prop)
    (P : @Step Cache World -> Prop) :
  (forall n state s u s1,
      Inv n state ->
      run_node ext n state s = (Ok u, s1) ->
      P {| step_node := n; step_update := u;
           step_state := apply_update state u; step_sys := s1 |}) ->
  (forall n state s u state' n' s2,
      Inv n state ->
      graph_step ext n state s = (Ok (u, state', Goto n'), s2) ->
      Inv n' state') ->
  forall limit fuel n state s,
    Inv n state -> Forall P (yielded (run_graph ext limit fuel n state s)).
Proof.
  intros Hstep Hnext limit fuel.
  induction fuel as [|fuel IH]; intros n state s HI; [constructor|].
  run_graph_cases n state s u s1 r s2 En Er; [| |constructor].
  2:{ unfold yielded. cbn [fst]. repeat constructor. eauto. }
  pose proof (Hstep _ _ _ _ _ HI En) as HP.
  destruct fuel as [|fuel']; [unfold yielded; cbn [fst]; by repeat constructor|].
  destruct r as [n'|].
  - pose proof (Hnext _ _ _ _ _ _ _ HI (graph_step_of_parts _ _ _ _ _ _ _ En Er)) as HI'.
    specialize (IH n' (apply_update state u) s2 HI').
    destruct (run_graph ext limit (S fuel') n' (apply_update state u) s2) as [[steps o] s3].
    unfold yielded in *. cbn [fst] in *. by constructor.
  - unfold yielded. cbn [fst]. by repeat constructor.
Qed.

(** ** The conversation keeps the original question in front *)

(** C2. In every state reached during a query, whatever the number of
    rewrite cycles and however the run ends, message 0 of the conversation is
    the original question: each step only appends its update to the
    messages, and the update of a rewrite step is one new user message. *)
Theorem message_zero_invariant (recursion_limit : nat) (question : string) (s : Sys) :
  Forall (fun st =>
            messages (step_state st) !! 0%nat = Some (HumanMessage question)
            /\ (exists earlier,
                   messages (step_state st)
                   = HumanMessage question :: earlier ++ upd_messages (step_update st))
            /\ (step_node st = NRewriteQuestion ->
                 exists text, upd_messages (step_update st) = [HumanMessage text]))
         (yielded (graph_stream ext RagWorkflow recursion_limit question s)).
Proof.
  unfold graph_stream.
  apply (run_graph_Forall
           (fun _ state => exists earlier, messages state = HumanMessage question :: earlier)).
  3:{ exists []. reflexivity. }
  - intros n state s0 u s1 [earlier He] En.
    apply run_node_ok in En.
    cbn [step_state step_update step_node apply_update messages].
    rewrite He. split; [done|]. split; [by exists earlier|].
    intros ->. destruct En as (text & ->). by exists text.
  - intros n state s0 u state' n' s2 [earlier He] E.
    apply graph_step_ok in E. destruct E as [-> _].
    exists (earlier ++ upd_messages u). cbn. by rewrite He.
Qed.

(** ** The retry bound *)

Lemma rewrites_cons (st : @Step Cache World) steps :
  rewrites (st :: steps)
  = ((if decide (step_node st = NRewriteQuestion) then 1 else 0) + rewrites steps)%nat.
Proof.
  unfold rewrites, nodes_of. cbn [map]. rewrite filter_cons.
  by destruct (decide (step_node st = NRewriteQuestion)).
Qed.

Lemma rewrites_nil : rewrites (@nil (@Step Cache World)) = 0%nat.
Proof. reflexivity. Qed.

(** From any node, the rewrites still to come fit in what is left of the
    budget; a run that is about to rewrite is below the budget. *)
Lemma run_graph_rewrites_bounded limit fuel n state s :
  (n = NRewriteQuestion -> retry_count state < max_retries (self s)) ->
  Z.of_nat (rewrites (yielded (run_graph ext limit fuel n state s)))
  <= Z.max 0 (max_retries (self s) - retry_count state).
Proof.
  revert n state s. induction fuel as [|fuel IH]; intros n state s Hpre.
  { unfold yielded. cbn. lia. }
  assert (Hsingle : forall st : @Step Cache World,
             step_node st = n ->
             Z.of_nat (rewrites [st]) <= Z.max 0 (max_retries (self s) - retry_count state)).
  { intros st Hst. rewrite rewrites_cons, rewrites_nil, Hst.
    destruct (decide (n = NRewriteQuestion)) as [Hn|]; [specialize (Hpre Hn)|]; lia. }
  run_graph_cases n state s u s1 r s2 En Er.
  3:{ unfold yielded. cbn [fst]. rewrite rewrites_nil. lia. }
  2:{ unfold yielded. cbn [fst]. by apply Hsingle. }
  destruct fuel as [|fuel']; [unfold yielded; cbn [fst]; by apply Hsingle|].
  destruct r as [n'|]; [|unfold yielded; cbn [fst]; by apply Hsingle].
  pose proof (graph_step_of_parts _ _ _ _ _ _ _ En Er) as E.
  pose proof (graph_step_self _ _ _ _ _ E) as Hs.
  apply graph_step_ok in E. destruct E as [_ Hn].
  specialize (IH n' (apply_update state u) s2).
  destruct (run_graph ext limit (S fuel') n' (apply_update state u) s2) as [[steps o] s3].
  unfold yielded in *. cbn [fst] in *. rewrite rewrites_cons. cbn [step_node].
  rewrite Hs in IH. revert IH. cbn [apply_update retry_count].
  destruct n; cbn in Hn.
  - destruct Hn as (text & tcs & -> & Hr). cbn.
    destruct tcs; inversion Hr; subst. intros IH.
    destruct (decide (NGenerateQueryOrRespond = NRewriteQuestion)); [done|].
    rewrite Z.add_0_r in IH. apply IH. done.
  - destruct Hn as (Hu & _ & Hr). rewrite Hu. cbn. rewrite Z.add_0_r. intros IH.
    destruct (decide (NRetrieve = NRewriteQuestion)); [done|]. apply IH.
    intros ->. destruct Hr as [Hr|[Hr|[_ Hr]]]; [done|done|exact Hr].
  - destruct Hn as (text & -> & Hr). inversion Hr; subst. cbn. intros IH.
    destruct (decide (NRewriteQuestion = NRewriteQuestion)); [|done].
    specialize (Hpre eq_refl).
    assert (Z.of_nat (rewrites steps) <= Z.max 0 (max_retries (self s) - (retry_count state + 1)))
      by (apply IH; done).
    lia.
  - by destruct Hn as (text & tcs & -> & Hr).
  - by destruct Hn as (text & tcs & -> & Hr).
Qed.

(** After each step, [retry_count] is its value at the start plus the number
    of rewrite steps made so far; a rewrite step adds exactly 1. *)
Lemma run_graph_retry_count limit fuel n state s :
  forall i st,
    yielded (run_graph ext limit fuel n state s) !! i = Some st ->
    retry_count (step_state st)
    = retry_count state
      + Z.of_nat (rewrites (take (S i) (yielded (run_graph ext limit fuel n state s)))).
Proof.
  revert n state s. induction fuel as [|fuel IH]; intros n state s i st.
  { unfold yielded. cbn. done. }
  run_graph_cases n state s u s1 r s2 En Er.
  3:{ unfold yielded. cbn. done. }
  all: assert (Hfirst : retry_count (apply_update state u)
                        = retry_count state
                          + (if decide (n = NRewriteQuestion) then 1 else 0))
         by (apply run_node_ok in En; cbn [apply_update retry_count];
             destruct n; cbn in En;
             [ destruct En as (text & tcs & ->)
             | destruct En as (-> & _)
             | destruct En as (text & ->)
             | destruct En as (text & tcs & ->)
             | destruct En as (text & tcs & ->) ];
             cbn; rewrite ?Z.add_0_r; reflexivity).
  all: assert (Hsingle : forall st0 : @Step Cache World,
           st0 = {| step_node := n; step_update := u;
                    step_state := apply_update state u; step_sys := s1 |} ->
           [st0] !! i = Some st ->
           retry_count (step_state st)
           = retry_count state + Z.of_nat (rewrites (take (S i) [st0])))
         by (intros st0 -> H; destruct i as [|i]; cbn [lookup list_lookup firstn] in *;
             [|done]; inversion H; subst; cbn [step_state];
             rewrite rewrites_cons, rewrites_nil; cbn [step_node]; rewrite Hfirst;
             destruct (decide (n = NRewriteQuestion)); cbn; lia).
  2:{ unfold yielded. cbn [fst]. by apply Hsingle. }
  destruct fuel as [|fuel']; [unfold yielded; cbn [fst]; by apply Hsingle|].
  destruct r as [n'|]; [|unfold yielded; cbn [fst]; by apply Hsingle].
  specialize (IH n' (apply_update state u) s2).
  destruct (run_graph ext limit (S fuel') n' (apply_update state u) s2) as [[steps o] s3].
  unfold yielded in *. cbn [fst] in *.
  destruct i as [|i]; cbn [lookup list_lookup firstn].
  - intros H. inversion H; subst. cbn [step_state].
    rewrite rewrites_cons, take_0, rewrites_nil. cbn [step_node]. rewrite Hfirst.
    destruct (decide (n = NRewriteQuestion)); cbn; lia.
  - intros H. cbn in H. rewrite (IH i st H), Hfirst.
    rewrite (rewrites_cons _ (take (S i) steps)). cbn [step_node].
    destruct (decide (n = NRewriteQuestion)); lia.
Qed.

(** *** A run in which the grader never says yes *)

Lemma grader_calls_snoc log c :
  grader_calls (log ++ [c]) = (grader_calls log + (if is_grader_call c then 1 else 0))%nat.
Proof.
  unfold grader_calls. rewrite filter_app, length_app, filter_cons, filter_nil.
  destruct (decide (is_grader_call c = true)) as [->|H]; [done|].
  by destruct (is_grader_call c).
Qed.

Lemma apply_update_messages state ms :
  apply_update state {| upd_messages := ms; upd_retry_count := None |}
  = {| messages := messages state ++ ms; retry_count := retry_count state |}.
Proof. unfold apply_update. cbn. by rewrite Z.add_0_r. Qed.

Section NeverYes.
Hypothesis Hrequest : always_requests_retrieval ext.
Hypothesis Hretriever : retriever_never_fails ext.
Hypothesis Hmodel : response_model_never_fails ext.
Hypothesis Hgrader : grader_never_yes ext.

Lemma step_generate_query state s :
  exists text tc tcs s1,
    graph_step ext NGenerateQueryOrRespond state s
    = (Ok ({| upd_messages := [AIMessage text (tc :: tcs)]; upd_retry_count := None |},
           {| messages := messages state ++ [AIMessage text (tc :: tcs)];
              retry_count := retry_count state |},
           Goto NRetrieve), s1)
    /\ self s1 = self s
    /\ grader_calls (calls s1) = grader_calls (calls s).
Proof.
  destruct (Hrequest (messages state) (world s)) as (text & tc & tcs & w' & E).
  exists text, tc, tcs. eexists.
  unfold graph_step. cbn [run_node route_after].
  unfold generate_query_or_respond, tools_condition. unfold_monad. rewrite E.
  cbn [fst snd]. rewrite apply_update_messages. cbn [messages]. rewrite last_snoc.
  split; [reflexivity|].
  cbn [self calls]. split; [done|]. by rewrite grader_calls_snoc, Nat.add_0_r.
Qed.

Lemma run_tool_calls_succeed tcs s :
  exists ms s1,
    run_tool_calls ext tcs s = (Ok ms, s1)
    /\ length ms = length tcs
    /\ self s1 = self s
    /\ grader_calls (calls s1) = grader_calls (calls s).
Proof.
  revert s. induction tcs as [|tc tcs IH]; intros s; cbn [run_tool_calls].
  { exists [], s. done. }
  assert (exists m s2, run_tool_call ext tc s = (Ok m, s2) /\ self s2 = self s
                       /\ grader_calls (calls s2) = grader_calls (calls s))
    as (m & s2 & E & Hs & Hg).
  { unfold run_tool_call. destruct (String.eqb (tc_name tc) "retrieve_documents").
    - destruct (Hretriever (tc_query tc) (world s)) as (docs & w' & E).
      unfold retrieve_documents. unfold_monad. rewrite E.
      do 2 eexists. split; [reflexivity|]. cbn [self calls]. split; [done|].
      by rewrite grader_calls_snoc, Nat.add_0_r.
    - do 2 eexists. split; [reflexivity|]. done. }
  destruct (IH s2) as (ms & s3 & E' & Hl & Hs' & Hg').
  exists (m :: ms), s3. unfold bind. rewrite E, E'. unfold ret.
  split; [done|]. cbn. split; [by rewrite Hl|]. split; congruence.
Qed.

Lemma step_retrieve state s text tc tcs :
  last (messages state) = Some (AIMessage text (tc :: tcs)) ->
  exists ms s1,
    graph_step ext NRetrieve state s
    = (Ok ({| upd_messages := ms; upd_retry_count := None |},
           {| messages := messages state ++ ms; retry_count := retry_count state |},
           Goto (if max_retries (self s) <=? retry_count state
                 then NGenerateFallback else NRewriteQuestion)), s1)
    /\ self s1 = self s
    /\ grader_calls (calls s1)
       = (grader_calls (calls s)
          + (if (max_retries (self s) <=? retry_count state)%Z then 0 else 1))%nat.
Proof.
  intros Hl.
  destruct (run_tool_calls_succeed (tc :: tcs) s) as (ms & s2 & E & Hlen & Hs & Hg).
  exists ms.
  unfold graph_step. cbn [run_node route_after]. unfold tool_node. rewrite Hl.
  unfold bind at 1. unfold bind at 1. rewrite E. unfold ret at 1.
  rewrite apply_update_messages.
  set (state' := {| messages := messages state ++ ms; retry_count := retry_count state |}).
  assert (Hne : messages state' <> []).
  { cbn. destruct (messages state); [discriminate | done]. }
  destruct (Z.leb_spec (max_retries (self s)) (retry_count state)) as [Hle|Hlt].
  - exists s2. unfold bind at 1. unfold bind at 1.
    rewrite (grade_documents_budget_spent state' s2 Hne); [|by rewrite Hs].
    unfold ret. split; [done|]. split; [done|]. by rewrite Nat.add_0_r.
  - destruct (messages state') as [|m0 l] eqn:Em; [done|].
    destruct (last (m0 :: l)) as [ml|] eqn:Elast.
    2:{ apply last_None in Elast. discriminate. }
    destruct (Hgrader (GRADE_PROMPT (content m0) (content ml)) (world s2))
      as (score & w' & Eg & Hno).
    eexists. unfold bind at 1. unfold bind at 1.
    rewrite (grade_documents_calls_grader state' s2 m0 ml);
      [| by rewrite Em | by rewrite Em | by rewrite Hs].
    unfold_monad. rewrite Eg.
    apply String.eqb_neq in Hno. rewrite Hno.
    split; [reflexivity|]. cbn [self calls]. split; [done|].
    rewrite grader_calls_snoc. cbn. lia.
Qed.

Lemma step_rewrite_question state s :
  messages state <> [] ->
  exists text s1,
    graph_step ext NRewriteQuestion state s
    = (Ok ({| upd_messages := [HumanMessage text]; upd_retry_count := Some 1 |},
           {| messages := messages state ++ [HumanMessage text];
              retry_count := retry_count state + 1 |},
           Goto NGenerateQueryOrRespond), s1)
    /\ self s1 = self s
    /\ grader_calls (calls s1) = grader_calls (calls s).
Proof.
  intros Hne. destruct (messages state) as [|m0 l] eqn:Em; [done|].
  destruct (Hmodel (REWRITE_PROMPT (content m0)) (world s)) as ([text tcs] & w' & E).
  exists text. eexists.
  unfold graph_step. cbn [run_node route_after]. unfold rewrite_question.
  rewrite Em. unfold_monad. rewrite E.
  unfold apply_update. cbn [messages upd_messages upd_retry_count retry_count fst default].
  rewrite Em. split; [reflexivity|]. cbn [self calls]. split; [done|].
  by rewrite grader_calls_snoc, Nat.add_0_r.
Qed.

Lemma step_generate_fallback state s :
  messages state <> [] ->
  exists text tcs s1,
    graph_step ext NGenerateFallback state s
    = (Ok ({| upd_messages := [AIMessage text tcs]; upd_retry_count := None |},
           {| messages := messages state ++ [AIMessage text tcs];
              retry_count := retry_count state |},
           END), s1)
    /\ self s1 = self s
    /\ grader_calls (calls s1) = grader_calls (calls s).
Proof.
  intros Hne. destruct (messages state) as [|m0 l] eqn:Em; [done|].
  destruct (Hmodel (FALLBACK_PROMPT (content m0)) (world s)) as ([text tcs] & w' & E).
  exists text, tcs. eexists.
  unfold graph_step. cbn [run_node route_after]. unfold generate_fallback.
  rewrite Em. unfold_monad. rewrite E.
  cbn [fst snd]. rewrite apply_update_messages, Em.
  split; [reflexivity|]. cbn [self calls]. split; [done|].
  by rewrite grader_calls_snoc, Nat.add_0_r.
Qed.

(** A step that goes on, and a step that ends the run, seen from the
    outside. *)
Lemma run_graph_step_goto limit fuel n state s u state' n' s2 :
  graph_step ext n state s = (Ok (u, state', Goto n'), s2) ->
  nodes_of (yielded (run_graph ext limit (S (S fuel)) n state s))
  = n :: nodes_of (yielded (run_graph ext limit (S fuel) n' state' s2))
  /\ ending (run_graph ext limit (S (S fuel)) n state s)
     = ending (run_graph ext limit (S fuel) n' state' s2)
  /\ final_sys (run_graph ext limit (S (S fuel)) n state s)
     = final_sys (run_graph ext limit (S fuel) n' state' s2).
Proof.
  unfold graph_step, bind. intros E.
  destruct (run_node ext n state s) as [[u0|e] s1] eqn:En; [|discriminate].
  destruct (route_after ext n (apply_update state u0) s1) as [[r|e] s2'] eqn:Er;
    [|discriminate].
  unfold ret in E. inversion E; subst.
  change (run_graph ext limit (S (S fuel)) n state s)
    with (match run_node ext n state s with
          | (Raise e, s1) => ([], Raise e, s1)
          | (Ok u, s1) =>
              let state' := apply_update state u in
              let step := {| step_node := n; step_update := u;
                             step_state := state'; step_sys := s1 |} in
              match route_after ext n state' s1 with
              | (Raise e, s2) => ([step], Raise e, s2)
              | (Ok r, s2) =>
                  match r with
                  | END => ([step], Ok tt, s2)
                  | Goto n' =>
                      let '(steps, o, s3) :=
                        run_graph ext limit (S fuel) n' state' s2 in
                      (step :: steps, o, s3)
                  end
              end
          end).
  rewrite En. cbv zeta. rewrite Er.
  destruct (run_graph ext limit (S fuel) n' (apply_update state u) s2) as [[steps o] s3].
  done.
Qed.

Lemma run_graph_step_end limit fuel n state s u state' s2 :
  graph_step ext n state s = (Ok (u, state', END), s2) ->
  nodes_of (yielded (run_graph ext limit (S (S fuel)) n state s)) = [n]
  /\ ending (run_graph ext limit (S (S fuel)) n state s) = Ok tt
  /\ final_sys (run_graph ext limit (S (S fuel)) n state s) = s2.
Proof.
  unfold graph_step, bind. intros E.
  destruct (run_node ext n state s) as [[u0|e] s1] eqn:En; [|discriminate].
  destruct (route_after ext n (apply_update state u0) s1) as [[r|e] s2'] eqn:Er;
    [|discriminate].
  unfold ret in E. inversion E; subst.
  cbn [run_graph]. by rewrite En, Er.
Qed.

(** With [k] rewrites left in the budget and fuel for more than their
    steps, the run makes [k] rewrite cycles, asks the grader once in each, and ends in the
    fallback node. *)
Lemma run_graph_never_yes limit k :
  forall fuel state s,
    messages state <> [] ->
    retry_count state = max_retries (self s) - Z.of_nat k ->
    (3 * (k + 1) < fuel)%nat ->
    let run := run_graph ext limit fuel NGenerateQueryOrRespond state s in
    nodes_of (yielded run) = retry_cycles k
    /\ ending run = Ok tt
    /\ grader_calls (calls (final_sys run)) = (grader_calls (calls s) + k)%nat.
Proof.
  induction k as [|k IH]; intros fuel state s Hne Hr Hf run; subst run.
  - destruct fuel as [|[|[|[|fuel]]]]; try lia.
    destruct (step_generate_query state s) as (text & tc & tcs & s1 & E1 & Hs1 & Hg1).
    set (state1 := {| messages := messages state ++ [AIMessage text (tc :: tcs)];
                      retry_count := retry_count state |}) in *.
    destruct (step_retrieve state1 s1 text tc tcs) as (ms & s2 & E2 & Hs2 & Hg2).
    { cbn. by rewrite last_snoc. }
    assert (Hb : (max_retries (self s1) <=? retry_count state1) = true).
    { apply Z.leb_le. rewrite Hs1. cbn. lia. }
    rewrite Hb in E2, Hg2.
    set (state2 := {| messages := messages state1 ++ ms; retry_count := retry_count state1 |})
      in *.
    destruct (step_generate_fallback state2 s2) as (t3 & tcs3 & s3 & E3 & Hs3 & Hg3).
    { cbn. destruct (messages state); [discriminate | done]. }
    destruct (run_graph_step_goto limit (S (S fuel)) _ _ _ _ _ _ _ E1) as (-> & -> & ->).
    destruct (run_graph_step_goto limit (S fuel) _ _ _ _ _ _ _ E2) as (-> & -> & ->).
    destruct (run_graph_step_end limit fuel _ _ _ _ _ _ E3) as (-> & -> & ->).
    split; [done|]. split; [done|]. lia.
  - destruct fuel as [|[|[|[|fuel]]]]; try lia.
    destruct (step_generate_query state s) as (text & tc & tcs & s1 & E1 & Hs1 & Hg1).
    set (state1 := {| messages := messages state ++ [AIMessage text (tc :: tcs)];
                      retry_count := retry_count state |}) in *.
    destruct (step_retrieve state1 s1 text tc tcs) as (ms & s2 & E2 & Hs2 & Hg2).
    { cbn. by rewrite last_snoc. }
    assert (Hb : (max_retries (self s1) <=? retry_count state1) = false).
    { apply Z.leb_gt. rewrite Hs1. cbn. lia. }
    rewrite Hb in E2, Hg2.
    set (state2 := {| messages := messages state1 ++ ms; retry_count := retry_count state1 |})
      in *.
    destruct (step_rewrite_question state2 s2) as (t3 & s3 & E3 & Hs3 & Hg3).
    { cbn. destruct (messages state); [discriminate | done]. }
    set (state3 := {| messages := messages state2 ++ [HumanMessage t3];
                      retry_count := retry_count state2 + 1 |}) in *.
    destruct (run_graph_step_goto limit (S (S fuel)) _ _ _ _ _ _ _ E1) as (-> & -> & ->).
    destruct (run_graph_step_goto limit (S fuel) _ _ _ _ _ _ _ E2) as (-> & -> & ->).
    destruct (run_graph_step_goto limit fuel _ _ _ _ _ _ _ E3) as (-> & -> & ->).
    destruct (IH (S fuel) state3 s3) as (IH1 & IH2 & IH3).
    { cbn. destruct (messages state); [discriminate | done]. }
    { cbn. rewrite Hs3, Hs2, Hs1. lia. }
    { lia. }
    cbn [retry_cycles]. rewrite IH1. split; [done|]. split; [done|]. lia.
Qed.

Lemma rewrites_of_nodes (steps : list (@Step Cache World)) k :
  nodes_of steps = retry_cycles k ->
  rewrites steps = k /\ last (nodes_of steps) = Some NGenerateFallback.
Proof.
  unfold rewrites. intros ->. induction k as [|k [IH1 IH2]]; [done|].
  cbn [retry_cycles]. split.
  - rewrite !filter_cons.
    destruct (decide (NGenerateQueryOrRespond = NRewriteQuestion)); [done|].
    destruct (decide (NRetrieve = NRewriteQuestion)); [done|].
    destruct (decide (NRewriteQuestion = NRewriteQuestion)); [|done].
    cbn. by rewrite IH1.
  - destruct k; exact IH2.
Qed.

End NeverYes.

(** C1, as the code has it.  In every run started by a cache-miss query,
    [retry_count] after each step is the number of rewrite steps made so far
    (a rewrite step adds exactly 1), the number of rewrites never exceeds
    [max_retries] (none when it is negative), and a grading step entered with
    [retry_count >= max_retries] chooses [generate_fallback] without calling
    the grader.  When moreover the response model asks for retrieval on every
    pass, no collaborator fails, the grader never says "yes",
    [max_retries >= 0] and the step ceiling leaves room for
    [3 * (max_retries + 1)] steps, the run makes exactly [max_retries] rewrite
    cycles, calls the grader once in each, and ends in the fallback node. *)
Theorem retry_bound (question : string) (s : Sys) :
  let run := graph_stream ext RagWorkflow RECURSION_LIMIT question s in
  Z.of_nat (rewrites (yielded run)) <= Z.max 0 (max_retries (self s))
  /\ (forall i st,
        yielded run !! i = Some st ->
        retry_count (step_state st) = Z.of_nat (rewrites (take (S i) (yielded run)))
        /\ (step_node st = NRewriteQuestion ->
            upd_retry_count (step_update st) = Some 1))
  /\ (forall state s0,
        messages state <> [] ->
        max_retries (self s0) <= retry_count state ->
        grade_documents ext state s0 = (Ok generate_fallback_route, s0))
  /\ (always_requests_retrieval ext ->
      retriever_never_fails ext ->
      response_model_never_fails ext ->
      grader_never_yes ext ->
      0 <= max_retries (self s) ->
      3 * (max_retries (self s) + 1) <= Z.of_nat RECURSION_LIMIT ->
      nodes_of (yielded run) = retry_cycles (Z.to_nat (max_retries (self s)))
      /\ Z.of_nat (rewrites (yielded run)) = max_retries (self s)
      /\ last (nodes_of (yielded run)) = Some NGenerateFallback
      /\ ending run = Ok tt
      /\ grader_calls (calls (final_sys run))
         = (grader_calls (calls s) + Z.to_nat (max_retries (self s)))%nat).
Proof.
  intros run. subst run. unfold graph_stream. split; [|split; [|split]].
  - pose proof (run_graph_rewrites_bounded RECURSION_LIMIT RECURSION_LIMIT
                  NGenerateQueryOrRespond (initial_state question) s) as H.
    cbn [initial_state apply_update retry_count upd_retry_count default] in H.
    rewrite Z.sub_0_r in H. apply H. done.
  - intros i st Hi. split.
    + rewrite (run_graph_retry_count _ _ _ _ _ i st Hi). cbn. lia.
    + assert (HF : Forall (fun st0 : @Step Cache World =>
                             step_node st0 = NRewriteQuestion ->
                             upd_retry_count (step_update st0) = Some 1)
                     (yielded (run_graph ext RECURSION_LIMIT RECURSION_LIMIT
                                 NGenerateQueryOrRespond (initial_state question) s))).
      { apply (run_graph_Forall (fun _ _ => True)); [|done|done].
        intros n state s0 u s1 _ E. cbn [step_node step_update]. intros ->.
        apply run_node_ok in E. destruct E as (text & ->). done. }
      rewrite Forall_lookup in HF. exact (HF i st Hi).
  - intros state s0. apply grade_documents_budget_spent.
  - intros Hrequest Hretriever Hmodel Hgrader Hpos Hroom.
    destruct (run_graph_never_yes Hrequest Hretriever Hmodel Hgrader RECURSION_LIMIT
                (Z.to_nat (max_retries (self s))) RECURSION_LIMIT
                (initial_state question) s) as (Hn & He & Hg).
    { done. }
    { cbn. lia. }
    { unfold RECURSION_LIMIT in *. lia. }
    destruct (rewrites_of_nodes _ _ Hn) as [Hr Hl].
    split; [exact Hn|]. split; [rewrite Hr; lia|]. done.
Qed.

(** ** The streaming entry point against the synchronous one *)

(** Every update reported by a run carries at least one message: the
    retrieve node runs only on an assistant message with tool calls. *)
Lemma run_graph_updates_nonempty limit fuel question s :
  Forall (fun st => upd_messages (step_update st) <> [])
         (yielded (run_graph ext limit fuel NGenerateQueryOrRespond
                     (initial_state question) s)).
Proof.
  apply (run_graph_Forall
           (fun n state => n = NRetrieve ->
                           exists text tc tcs,
                             last (messages state) = Some (AIMessage text (tc :: tcs))));
    [| |done].
  - intros n state s0 u s1 HI E. apply run_node_ok in E. cbn [step_update].
    destruct n; cbn in E.
    + by destruct E as (text & tcs & ->).
    + destruct E as (_ & text & tcs & Hl & Hlen).
      destruct (HI eq_refl) as (text' & tc & tcs' & Hl').
      rewrite Hl in Hl'. inversion Hl'; subst.
      intros Hu. rewrite Hu in Hlen. discriminate.
    + by destruct E as (text & ->).
    + by destruct E as (text & tcs & ->).
    + by destruct E as (text & tcs & ->).
  - intros n state s0 u state' n' s2 HI E.
    apply graph_step_ok in E. destruct E as [-> Hn].
    destruct n; cbn in Hn.
    + destruct Hn as (text & tcs & -> & Hr). intros ->.
      destruct tcs as [|tc tcs]; [done|].
      exists text, tc, tcs. cbn. by rewrite last_snoc.
    + destruct Hn as (_ & _ & Hr). intros ->. by destruct Hr as [Hr|[Hr|[Hr _]]].
    + destruct Hn as (text & -> & Hr). intros ->. done.
    + destruct Hn as (text & tcs & -> & Hr). intros ->. done.
    + destruct Hn as (text & tcs & -> & Hr). intros ->. done.
Qed.


(** The answer kept by the loop of [query_stream]: the content of the last
    message of the last update. *)
Lemma node_updates_all (steps : list (@Step Cache World)) final_answer :
  Forall (fun st => upd_messages (step_update st) <> []) steps ->
  node_updates steps final_answer
  = (map node_update_event steps,
     inl match last (map step_update steps) with
         | Some result => content <$> last (upd_messages result)
         | None => final_answer
         end).
Proof.
  intros HF. revert final_answer.
  induction HF as [|st steps Hne HF IH]; intros final_answer; [done|].
  cbn [node_updates map].
  destruct (last (upd_messages (step_update st))) as [m|] eqn:El.
  2:{ apply last_None in El. done. }
  rewrite IH. unfold node_update_event at 2. f_equal. f_equal.
  destruct steps as [|st' steps]; cbn [map last]; [by rewrite El|].
  destruct (last (step_update st' :: map step_update steps)) eqn:E; [done|].
  apply last_None in E. discriminate.
Qed.

Lemma query_stream_miss_eq (s : Sys) (question : string) lookup c' w' g :
  cache_check ext question 1 (cache (self s)) (world s) = (Ok lookup, c', w') ->
  hit lookup = false ->
  graph (self s) = Some g ->
  let run := graph_stream ext g RECURSION_LIMIT question (checked s question c' w') in
  let updates := map node_update_event (yielded run) in
  query_stream ext question s =
    match ending run with
    | Ok _ =>
        (EvCacheMiss :: updates
           ++ [EvComplete match last (map step_update (yielded run)) with
                          | Some result => content <$> last (upd_messages result)
                          | None => None
                          end],
         Ok tt, final_sys run)
    | Raise e =>
        if mentions_recursion e then
          (EvCacheMiss :: updates ++ [EvError STREAM_DEGRADED_ANSWER], Ok tt, final_sys run)
        else (EvCacheMiss :: updates, Raise e, final_sys run)
    end.
Proof.
  intros Hc Hh Hg run updates. subst run updates. unfold query_stream.
  rewrite (on_cache_check_eq _ _ _ _ _ Hc), Hh.
  cbn [self graph checked]. rewrite Hg. fold (checked s question c' w').
  pose proof (run_graph_updates_nonempty RECURSION_LIMIT RECURSION_LIMIT question
                (checked s question c' w')) as HF.
  unfold graph_stream, yielded, ending, final_sys in *.
  destruct (run_graph ext RECURSION_LIMIT RECURSION_LIMIT NGenerateQueryOrRespond
              (initial_state question) (checked s question c' w')) as [[steps o] s2].
  cbn [fst snd] in *. rewrite (node_updates_all steps None HF).
  destruct o as [[]|e]; [done|]. by destruct (mentions_recursion e).
Qed.


(** ** Failures of the run *)

Lemma GraphRecursionError_mentions_recursion :
  mentions_recursion (GraphRecursionError RECURSION_LIMIT) = true.
Proof. reflexivity. Qed.

(** C5, as the code has it.  When the run of the workflow is stopped by the
    step ceiling, [query] returns its degraded answer, which says that the
    question might be too complex, with [cache_hit = False] and no cache
    information.  Any other exception raised during the run is re-raised
    unchanged by [query] and by [query_stream], provided its message does not
    contain "recursion" in any letter case; one whose message does is
    answered like the step ceiling.  A failure of the cache check itself is
    always raised. *)
Theorem degraded_answer_and_propagation (question : string) (s : Sys) :
  (forall e c' w',
      cache_check ext question 1 (cache (self s)) (world s) = (Raise e, c', w') ->
      fst (query ext question s) = Raise e
      /\ ending (query_stream ext question s) = Raise e)
  /\ (forall lookup c' w' g,
        cache_check ext question 1 (cache (self s)) (world s) = (Ok lookup, c', w') ->
        hit lookup = false ->
        graph (self s) = Some g ->
        let run := graph_stream ext g RECURSION_LIMIT question (checked s question c' w') in
        let degraded :=
          {| answer := QUERY_DEGRADED_ANSWER; cache_hit := false; cache_info := None |} in
        (ending run = Raise (GraphRecursionError RECURSION_LIMIT) ->
           query ext question s = (Ok degraded, final_sys run)
           /\ contains "too complex" (answer degraded) = true)
        /\ (forall e, ending run = Raise e -> mentions_recursion e = false ->
              query ext question s = (Raise e, final_sys run)
              /\ ending (query_stream ext question s) = Raise e)
        /\ (forall e, ending run = Raise e -> mentions_recursion e = true ->
              query ext question s = (Ok degraded, final_sys run)
              /\ ending (query_stream ext question s) = Ok tt
              /\ last (yielded (query_stream ext question s))
                 = Some (EvError STREAM_DEGRADED_ANSWER))).
Proof.
  split.
  - intros e c' w' Hc. unfold query, query_stream, bind, ending.
    by rewrite (on_cache_check_eq _ _ _ _ _ Hc).
  - intros lookup c' w' g Hc Hh Hg run degraded.
    pose proof (query_miss_eq _ _ _ _ _ Hc Hh) as Hq.
    pose proof (query_stream_miss_eq _ _ _ _ _ _ Hc Hh Hg) as Hqs.
    rewrite Hg in Hq. cbv zeta in Hq, Hqs. fold run in Hq, Hqs.
    split; [|split].
    + intros He. rewrite He, GraphRecursionError_mentions_recursion in Hq.
      split; [exact Hq | reflexivity].
    + intros e He Hm. rewrite He, Hm in Hq, Hqs. split; [exact Hq|].
      by rewrite Hqs.
    + intros e He Hm. rewrite He, Hm in Hq, Hqs. split; [exact Hq|].
      rewrite Hqs. unfold ending, yielded. cbn [fst snd]. split; [done|].
      rewrite app_comm_cons. apply last_snoc.
Qed.

(** ** What writes the cache *)

Lemma run_graph_final_self limit fuel n state s :
  self (final_sys (run_graph ext limit fuel n state s)) = self s.
Proof. apply run_graph_self. Qed.

(** After [query], the chatbot object is the one left by the cache check. *)
Lemma query_self (question : string) (s : Sys) :
  self (snd (query ext question s)) = self (after_check ext question s).
Proof.
  destruct (cache_check ext question 1 (cache (self s)) (world s))
    as [[[lookup|e] c'] w'] eqn:Hc; rewrite (after_check_eq _ _ _ _ _ Hc).
  2:{ unfold query, bind. by rewrite (on_cache_check_eq _ _ _ _ _ Hc). }
  destruct (hit lookup) eqn:Hh.
  { unfold query, bind. rewrite (on_cache_check_eq _ _ _ _ _ Hc), Hh.
    unfold best_match_of. by destruct (best_match lookup). }
  rewrite (query_miss_eq _ _ _ _ _ Hc Hh).
  destruct (graph (self s)) as [g|]; [|done]. cbv zeta.
  pose proof (run_graph_final_self RECURSION_LIMIT RECURSION_LIMIT NGenerateQueryOrRespond
                (initial_state question) (checked s question c' w')) as Hs.
  fold (graph_stream ext g RECURSION_LIMIT question (checked s question c' w')) in Hs.
  destruct (ending _) as [[]|e].
  - destruct (last (map step_update _)) as [result|]; [|exact Hs].
    destruct (last (upd_messages result)); exact Hs.
  - destruct (mentions_recursion e); exact Hs.
Qed.

Lemma query_stream_self (question : string) (s : Sys) :
  self (final_sys (query_stream ext question s)) = self (after_check ext question s).
Proof.
  destruct (cache_check ext question 1 (cache (self s)) (world s))
    as [[[lookup|e] c'] w'] eqn:Hc; rewrite (after_check_eq _ _ _ _ _ Hc).
  2:{ unfold query_stream. by rewrite (on_cache_check_eq _ _ _ _ _ Hc). }
  destruct (hit lookup) eqn:Hh.
  { unfold query_stream. rewrite (on_cache_check_eq _ _ _ _ _ Hc), Hh.
    unfold best_match_of. by destruct (best_match lookup). }
  destruct (graph (self s)) as [g|] eqn:Hg.
  2:{ unfold query_stream. rewrite (on_cache_check_eq _ _ _ _ _ Hc), Hh.
      unfold checked. cbn [self graph]. by rewrite Hg. }
  rewrite (query_stream_miss_eq _ _ _ _ _ _ Hc Hh Hg). cbv zeta.
  pose proof (run_graph_final_self RECURSION_LIMIT RECURSION_LIMIT NGenerateQueryOrRespond
                (initial_state question) (checked s question c' w')) as Hs.
  fold (graph_stream ext g RECURSION_LIMIT question (checked s question c' w')) in Hs.
  destruct (ending _) as [[]|e]; [exact Hs|].
  destruct (mentions_recursion e); exact Hs.
Qed.

Lemma after_check_cache (question : string) (s : Sys) :
  check_is_read_only ext ->
  cache (self (after_check ext question s)) = cache (self s).
Proof.
  intros Hro. specialize (Hro question 1%nat (cache (self s)) (world s)).
  destruct (cache_check ext question 1 (cache (self s)) (world s)) as [[r c'] w'] eqn:Hc.
  rewrite (after_check_eq _ _ _ _ _ Hc). exact Hro.
Qed.

(** C9.  Given that [SemanticCache.check] does not change the store, [query]
    and [query_stream] leave the cache as they found it, however they end: on
    a miss the answer of the workflow is not added to it.  Given also that
    [SemanticCache.save_to_file] does not change the store, a method call
    after which the cache differs is a call of [add_to_cache],
    [load_cache_pairs] or [load_cache_from_file]. *)
Theorem cache_written_only_by_loaders (s : Sys) :
  check_is_read_only ext ->
  (forall question, cache (self (snd (query ext question s))) = cache (self s))
  /\ (forall question,
        cache (self (final_sys (query_stream ext question s))) = cache (self s))
  /\ (save_is_read_only ext ->
      forall c, cache (self (state_after ext c s)) <> cache (self s) ->
                writes_cache c = true).
Proof.
  intros Hcheck.
  assert (Hq : forall question, cache (self (snd (query ext question s))) = cache (self s)).
  { intros question. by rewrite query_self, after_check_cache. }
  assert (Hqs : forall question,
             cache (self (final_sys (query_stream ext question s))) = cache (self s)).
  { intros question. by rewrite query_stream_self, after_check_cache. }
  split; [exact Hq|]. split; [exact Hqs|].
  intros Hsave c Hc. destruct c; cbn [writes_cache state_after] in *; try done; exfalso;
    apply Hc; clear Hc.
  - unfold load_existing_vectorstore, setup_graph, bind, external, ret.
    destruct (doc_store_load_existing ext (world s)) as [[[]|e] w]; [|done|done].
    cbn [world calls self]. by destruct (doc_store_get_retriever ext 4 w) as [[[]|e] w2].
  - unfold save_cache_to_file, on_cache.
    specialize (Hsave filepath (cache (self s)) (world s)).
    by destruct (cache_save_to_file ext filepath (cache (self s)) (world s)) as [[r c'] w].
  - unfold get_vectorstore_stats, external.
    by destruct (doc_store_get_stats ext (world s)).
  - apply Hq.
  - apply Hqs.
Qed.

(** ** Loading the cache from a file *)

Lemma zip_fst_take {A B} (l : list A) (k : list B) :
  (zip l k).*1 = take (length k) l.
Proof.
  revert k. induction l as [|x l IH]; intros [|y k]; cbn; [done..|].
  by rewrite IH.
Qed.

Lemma foldl_insert_pairs_is_Some (kvs : list (string * string))
    (d : gmap string (option string)) (key : string) :
  is_Some (foldl (fun d kv => <[fst kv := Some (snd kv)]> d) d kvs !! key)
  <-> is_Some (d !! key) \/ key ∈ kvs.*1.
Proof.
  revert d. induction kvs as [|[k v] kvs IH]; intros d; cbn [foldl fmap list_fmap].
  - rewrite elem_of_nil. tauto.
  - rewrite IH, lookup_insert_is_Some', elem_of_cons. cbn. intuition congruence.
Qed.

Lemma foldl_insert_keys_is_Some (ks : list string)
    (d : gmap string (option string)) (key : string) :
  is_Some (foldl (fun d k => <[k := None]> d) d ks !! key)
  <-> is_Some (d !! key) \/ key ∈ ks.
Proof.
  revert d. induction ks as [|k ks IH]; intros d; cbn [foldl].
  - rewrite elem_of_nil. tauto.
  - rewrite IH, lookup_insert_is_Some', elem_of_cons. intuition congruence.
Qed.

(** The keys of a row dict are the field names, whatever the length of the
    row. *)
Lemma dict_row_is_Some (fieldnames row : list string) (key : string) :
  is_Some (dict_row fieldnames row !! key) <-> key ∈ fieldnames.
Proof.
  unfold dict_row.
  rewrite foldl_insert_keys_is_Some, foldl_insert_pairs_is_Some, zip_fst_take.
  rewrite <- (take_drop (length row) fieldnames) at 3. rewrite elem_of_app.
  pose proof (lookup_empty_is_Some (M:=gmap string) (A:=option string) key).
  tauto.
Qed.

Lemma read_pairs_complete_header (fieldnames : list string) (rows : list (list string)) :
  "question" ∈ fieldnames -> "answer" ∈ fieldnames ->
  exists pairs, read_pairs (map (dict_row fieldnames) rows) = Ok pairs
                /\ length pairs = length rows.
Proof.
  intros Hq Ha. induction rows as [|row rows (pairs & IH & Hlen)]; cbn [map read_pairs].
  { by exists []. }
  apply (dict_row_is_Some fieldnames row) in Hq, Ha.
  destruct Hq as [q Hq], Ha as [a Ha]. unfold getitem. rewrite Hq, Ha, IH.
  exists ((q, a) :: pairs). cbn. by rewrite Hlen.
Qed.

Lemma read_pairs_failure (fieldnames : list string) (rows : list (list string)) e :
  read_pairs (map (dict_row fieldnames) rows) = Raise e ->
  (e = KeyError "question" /\ "question" ∉ fieldnames)
  \/ (e = KeyError "answer" /\ "answer" ∉ fieldnames).
Proof.
  induction rows as [|row rows IH]; cbn [map read_pairs]; [done|].
  unfold getitem.
  destruct (dict_row fieldnames row !! "question") as [q|] eqn:Hq.
  2:{ intros H. inversion H. left. split; [done|].
      rewrite <- (dict_row_is_Some fieldnames row), Hq. apply is_Some_None. }
  destruct (dict_row fieldnames row !! "answer") as [a|] eqn:Ha.
  2:{ intros H. inversion H. right. split; [done|].
      rewrite <- (dict_row_is_Some fieldnames row), Ha. apply is_Some_None. }
  destruct (read_pairs (map (dict_row fieldnames) rows)); [done|].
  intros H. inversion H; subst. by apply IH.
Qed.

(** C8, as the code has it.  Reading the rows of the file never fails on a
    row: with both columns [question] and [answer] in the header, every
    non-blank data row gives one pair, whatever its number of fields, and
    blank rows are skipped; the only failure is the [KeyError] naming a
    column that the header lacks, which names no row.  The pairs read are
    handed to [hydrate_from_pairs] as they are. *)
Theorem load_cache_from_file_rows (fieldnames : list string) (data : list (list string)) :
  ("question" ∈ fieldnames -> "answer" ∈ fieldnames ->
   exists pairs,
     read_pairs (DictReader (fieldnames :: data)) = Ok pairs
     /\ length pairs = length (filter (fun r => r <> []) data))
  /\ (forall e,
        read_pairs (DictReader (fieldnames :: data)) = Raise e ->
        (e = KeyError "question" /\ "question" ∉ fieldnames)
        \/ (e = KeyError "answer" /\ "answer" ∉ fieldnames))
  /\ (forall filepath (s : Sys) w' pairs,
        csv_reader ext filepath (world s) = (Ok (fieldnames :: data), w') ->
        read_pairs (DictReader (fieldnames :: data)) = Ok pairs ->
        load_cache_from_file ext filepath s
        = on_cache (CallCacheHydrate pairs) (cache_hydrate_from_pairs ext pairs)
            {| self := self s; world := w'; calls := calls s ++ [CallOpenCsv filepath] |}).
Proof.
  cbn [DictReader]. split; [|split].
  - apply read_pairs_complete_header.
  - apply read_pairs_failure.
  - intros filepath s w' pairs Hcsv Hp.
    unfold load_cache_from_file, bind at 1, external. rewrite Hcsv.
    unfold bind. cbn [DictReader]. by rewrite Hp.
Qed.

End Properties.

(** * The properties on concrete runs *)

Import Scenario.
Local Open Scope list_scope.

(** A budget of two rewrites, an empty cache, a grader that always says
    "no": two rewrite cycles, two grader calls, then the fallback. *)
Lemma retry_bound_witness :
  always_requests_retrieval never_relevant
  /\ retriever_never_fails never_relevant
  /\ response_model_never_fails never_relevant
  /\ grader_never_yes never_relevant
  /\ 0 <= 2
  /\ 3 * (2 + 1) <= Z.of_nat RECURSION_LIMIT
  /\ (let run := graph_stream never_relevant RagWorkflow RECURSION_LIMIT "q"
                    (chatbot [] 2 true) in
      nodes_of (yielded run) = retry_cycles 2
      /\ Z.of_nat (rewrites (yielded run)) = 2
      /\ last (nodes_of (yielded run)) = Some NGenerateFallback
      /\ ending run = Ok tt
      /\ grader_calls (calls (final_sys run)) = 2%nat).
Proof.
  assert (H1 : always_requests_retrieval never_relevant).
  { intros ms w. by exists "", (search_call "taskflow"), [], w. }
  assert (H2 : retriever_never_fails never_relevant).
  { intros q w. by exists ["doc"], w. }
  assert (H3 : response_model_never_fails never_relevant).
  { intros p w. by exists ("reply", []), w. }
  assert (H4 : grader_never_yes never_relevant).
  { intros p w. exists "no", w. split; [reflexivity | discriminate]. }
  assert (H5 : 0 <= 2) by lia.
  assert (H6 : 3 * (2 + 1) <= Z.of_nat RECURSION_LIMIT) by (vm_compute; discriminate).
  do 6 (split; [assumption|]).
  exact (proj2 (proj2 (proj2 (retry_bound never_relevant "q" (chatbot [] 2 true))))
           H1 H2 H3 H4 H5 H6).
Defined.

(** C1 fails as stated.  With a budget of 20 rewrites and a grader that
    never says "yes", the step ceiling of 50 stops the run before the budget
    is used and before the fallback node; and when the response model answers the first
    pass itself, no grading takes place, nothing is rewritten and the
    fallback node is not reached. *)
Lemma retry_bound_counterexample :
  (grader_never_yes never_relevant
   /\ max_retries (self (chatbot [] 20 true)) = 20
   /\ Z.of_nat (rewrites (yielded (graph_stream never_relevant RagWorkflow RECURSION_LIMIT
                                     "q" (chatbot [] 20 true)))) < 20
   /\ ending (graph_stream never_relevant RagWorkflow RECURSION_LIMIT "q"
                 (chatbot [] 20 true)) = Raise (GraphRecursionError 50)
   /\ ~ reaches_fallback_after_budget never_relevant "q" (chatbot [] 20 true))
  /\ (grader_never_yes direct_answer
      /\ nodes_of (yielded (graph_stream direct_answer RagWorkflow RECURSION_LIMIT "q"
                              (chatbot [] 2 true))) = [NGenerateQueryOrRespond]
      /\ grader_calls (calls (final_sys (graph_stream direct_answer RagWorkflow
                                           RECURSION_LIMIT "q" (chatbot [] 2 true)))) = 0%nat
      /\ ~ reaches_fallback_after_budget direct_answer "q" (chatbot [] 2 true)).
Proof.
  assert (Hno : forall e : @Collaborators SemanticCache unit,
             grader_model_invoke e = (fun p w => (grade_no p, w)) -> grader_never_yes e).
  { intros e He p w. rewrite He. exists "no", w. split; [reflexivity | discriminate]. }
  split.
  - split; [by apply Hno|]. split; [reflexivity|].
    split; [by vm_compute|]. split; [by vm_compute|].
    intros [H _]. vm_compute in H. discriminate.
  - split; [by apply Hno|]. split; [by vm_compute|]. split; [by vm_compute|].
    intros [H _]. vm_compute in H. discriminate.
Qed.

(** The message list after the first retrieval, graded with a budget of
    two: the grader is asked once and its "no" routes to the rewrite. *)
Lemma grade_documents_below_budget_witness :
  let state := {| messages := [HumanMessage "q"; AIMessage "" [search_call "taskflow"];
                               ToolMessage "doc" "call_1"];
                  retry_count := 0 |} in
  let s := chatbot [] 2 true in
  let s' := {| self := self s; world := tt;
               calls := [CallGraderModel (GRADE_PROMPT "q" "doc")] |} in
  messages state !! 0%nat = Some (HumanMessage "q")
  /\ last (messages state) = Some (ToolMessage "doc" "call_1")
  /\ retry_count state < max_retries (self s)
  /\ grade_documents never_relevant state s = (Ok rewrite_question_route, s')
  /\ route_after never_relevant NRetrieve state s = (Ok (Goto NRewriteQuestion), s')
  /\ contains "q" (GRADE_PROMPT "q" "doc") = true
  /\ contains "doc" (GRADE_PROMPT "q" "doc") = true.
Proof.
  intros state s s'.
  assert (H1 : messages state !! 0%nat = Some (HumanMessage "q")) by reflexivity.
  assert (H2 : last (messages state) = Some (ToolMessage "doc" "call_1")) by reflexivity.
  assert (H3 : retry_count state < max_retries (self s)) by (vm_compute; reflexivity).
  do 3 (split; [assumption|]).
  exact (grade_documents_below_budget never_relevant state s _ _ H1 H2 H3).
Defined.



(** A run stopped by the step ceiling gives the degraded answer; a timeout
    of the model provider is raised by both entry points. *)
Lemma degraded_answer_and_propagation_witness :
  let miss := {| hit := false; best_match := None |} in
  (cache_check never_relevant "q" 1 (cache (self (chatbot [] 20 true))) tt = (Ok miss, [], tt)
   /\ hit miss = false
   /\ graph (self (chatbot [] 20 true)) = Some RagWorkflow
   /\ ending (graph_stream never_relevant RagWorkflow RECURSION_LIMIT "q"
                (checked (chatbot [] 20 true) "q" [] tt))
      = Raise (GraphRecursionError RECURSION_LIMIT)
   /\ fst (query never_relevant "q" (chatbot [] 20 true)) = Ok degraded)
  /\ (ending (graph_stream timing_out RagWorkflow RECURSION_LIMIT "q"
                (checked (chatbot [] 2 true) "q" [] tt)) = Raise provider_timeout
      /\ mentions_recursion provider_timeout = false
      /\ fst (query timing_out "q" (chatbot [] 2 true)) = Raise provider_timeout
      /\ ending (query_stream timing_out "q" (chatbot [] 2 true)) = Raise provider_timeout).
Proof.
  intros miss. split.
  - assert (H1 : cache_check never_relevant "q" 1 (cache (self (chatbot [] 20 true))) tt
                 = (Ok miss, [], tt)) by reflexivity.
    assert (H2 : hit miss = false) by reflexivity.
    assert (H3 : graph (self (chatbot [] 20 true)) = Some RagWorkflow) by reflexivity.
    assert (H4 : ending (graph_stream never_relevant RagWorkflow RECURSION_LIMIT "q"
                           (checked (chatbot [] 20 true) "q" [] tt))
                 = Raise (GraphRecursionError RECURSION_LIMIT)) by (vm_compute; reflexivity).
    do 4 (split; [assumption|]).
    exact (f_equal fst
             (proj1 (proj1 (proj2 (degraded_answer_and_propagation never_relevant "q"
                                     (chatbot [] 20 true)) miss [] tt RagWorkflow H1 H2 H3)
                      H4))).
  - assert (H1 : cache_check timing_out "q" 1 (cache (self (chatbot [] 2 true))) tt
                 = (Ok miss, [], tt)) by reflexivity.
    assert (H2 : hit miss = false) by reflexivity.
    assert (H3 : graph (self (chatbot [] 2 true)) = Some RagWorkflow) by reflexivity.
    assert (H4 : ending (graph_stream timing_out RagWorkflow RECURSION_LIMIT "q"
                           (checked (chatbot [] 2 true) "q" [] tt))
                 = Raise provider_timeout) by (vm_compute; reflexivity).
    assert (H5 : mentions_recursion provider_timeout = false) by reflexivity.
    do 2 (split; [assumption|]).
    destruct (proj1 (proj2 (proj2 (degraded_answer_and_propagation timing_out "q"
                                     (chatbot [] 2 true)) miss [] tt RagWorkflow H1 H2 H3))
                _ H4 H5) as [Hq Hs].
    split; [exact (f_equal fst Hq) | exact Hs].
Defined.

(** C5 fails as stated.  A failure of the model provider whose message
    contains the word "recursion" is not raised: [query] returns its degraded
    answer and [query_stream] ends with an [error] event. *)
Lemma degraded_answer_counterexample :
  ending (graph_stream unreachable RagWorkflow RECURSION_LIMIT "q"
            (after_check unreachable "q" (chatbot [] 2 true))) = Raise provider_failure
  /\ exn_type provider_failure <> exn_type (GraphRecursionError RECURSION_LIMIT)
  /\ fst (query unreachable "q" (chatbot [] 2 true)) = Ok degraded
  /\ fst (query unreachable "q" (chatbot [] 2 true)) <> Raise provider_failure
  /\ ending (query_stream unreachable "q" (chatbot [] 2 true)) = Ok tt
  /\ yielded (query_stream unreachable "q" (chatbot [] 2 true))
     = [EvCacheMiss; EvError STREAM_DEGRADED_ANSWER].
Proof.
  split; [by vm_compute|]. split; [by vm_compute|]. split; [by vm_compute|].
  split; [by vm_compute|]. split; by vm_compute.
Qed.

(** An empty cache and no graph: the precondition error, right after the
    cache check. *)
Lemma query_uninitialized_on_miss_witness :
  let s := chatbot [] 2 false in
  let miss := {| hit := false; best_match := None |} in
  let s1 := {| self := self s; world := tt; calls := [CallCacheCheck "q" 1] |} in
  graph (self s) = None
  /\ cache_check never_relevant "q" 1 (cache (self s)) (world s) = (Ok miss, [], tt)
  /\ hit miss = false
  /\ query never_relevant "q" s
     = (Raise (ValueError "Graph not initialized. Load vectorstore first."), s1)
  /\ query_stream never_relevant "q" s
     = ([EvCacheMiss],
        Raise (ValueError "Graph not initialized. Load vectorstore first."), s1).
Proof.
  intros s miss s1.
  assert (H1 : graph (self s) = None) by reflexivity.
  assert (H2 : cache_check never_relevant "q" 1 (cache (self s)) (world s)
               = (Ok miss, [], tt)) by reflexivity.
  assert (H3 : hit miss = false) by reflexivity.
  do 3 (split; [assumption|]).
  exact (query_uninitialized_on_miss never_relevant s "q" miss [] tt H1 H2 H3).
Defined.

(** C6 fails as stated.  With the graph not set up, a question found in the
    cache is answered; [query] does not fail. *)
Lemma query_uninitialized_counterexample :
  graph (self (chatbot [taskflow_pair] 2 false)) = None
  /\ fst (query never_relevant "What is TaskFlow?" (chatbot [taskflow_pair] 2 false))
     = Ok taskflow_hit.
Proof. split; reflexivity. Qed.

(** The same chatbot, seen from the cache-hit side. *)
Lemma cache_hit_before_initialization_witness :
  let s := chatbot [taskflow_pair] 2 false in
  let lookup := check exact_distance (1 # 10) "What is TaskFlow?" 1 [taskflow_pair] in
  let bm := {| prompt := "What is TaskFlow?"; response := "TaskFlow is a project tool.";
               vector_distance := 0; cosine_similarity := 1 - 0 |} in
  graph (self s) = None
  /\ cache_check never_relevant "What is TaskFlow?" 1 (cache (self s)) (world s)
     = (Ok lookup, [taskflow_pair], tt)
  /\ hit lookup = true
  /\ best_match lookup = Some bm
  /\ fst (query never_relevant "What is TaskFlow?" s) = Ok taskflow_hit
  /\ yielded (query_stream never_relevant "What is TaskFlow?" s)
     = [EvCacheHit "TaskFlow is a project tool." (cache_info_of bm)]
  /\ ending (query_stream never_relevant "What is TaskFlow?" s) = Ok tt.
Proof.
  intros s lookup bm.
  assert (H1 : graph (self s) = None) by reflexivity.
  assert (H2 : cache_check never_relevant "What is TaskFlow?" 1 (cache (self s)) (world s)
               = (Ok lookup, [taskflow_pair], tt)) by reflexivity.
  assert (H3 : hit lookup = true) by reflexivity.
  assert (H4 : best_match lookup = Some bm) by reflexivity.
  do 4 (split; [assumption|]).
  exact (proj1 (cache_hit_before_initialization never_relevant s "What is TaskFlow?"
                  lookup [taskflow_pair] tt H1 H2) H3 bm H4).
Defined.

(** A file whose rows have three, zero and one field under a complete
    header: three rows, two of them not blank, two pairs. *)
Lemma load_cache_from_file_rows_witness :
  let fieldnames := ["question"; "answer"] in
  let data := [["q1"; "a1"; "stray"]; []; ["q2"]] in
  "question" ∈ fieldnames
  /\ "answer" ∈ fieldnames
  /\ exists pairs,
       read_pairs (DictReader (fieldnames :: data)) = Ok pairs
       /\ length pairs = length (filter (fun r => r <> []) data).
Proof.
  intros fieldnames data.
  assert (H1 : "question" ∈ fieldnames) by (apply list_elem_of_here).
  assert (H2 : "answer" ∈ fieldnames)
    by (apply list_elem_of_further, list_elem_of_here).
  do 2 (split; [assumption|]).
  exact (proj1 (load_cache_from_file_rows never_relevant fieldnames data) H1 H2).
Defined.

(** C8 fails as stated.  A file with a three-field row and a blank row under
    a two-column header loads without any error: the stray field is dropped
    and the blank row is skipped; a row that lacks its answer is read as a
    pair with no answer. *)
Lemma load_cache_from_file_counterexample :
  fst (load_cache_from_file (with_csv_rows ragged_rows never_relevant) "cache.csv"
         (chatbot [] 2 false)) = Ok tt
  /\ cache (self (snd (load_cache_from_file (with_csv_rows ragged_rows never_relevant)
                         "cache.csv" (chatbot [] 2 false))))
     = [("q1", "a1"); ("q2", "a2")]
  /\ read_pairs (DictReader [["question"; "answer"]; ["q3"]]) = Ok [(Some "q3", None)].
Proof. split; [by vm_compute | split; by vm_compute]. Qed.

(** With the list-backed cache, whose check and save leave the store alone,
    a query that misses and runs the whole workflow leaves the seeded cache
    as it was. *)
Lemma cache_written_only_by_loaders_witness :
  let s := chatbot [taskflow_pair] 2 true in
  check_is_read_only never_relevant
  /\ save_is_read_only never_relevant
  /\ (forall question, cache (self (snd (query never_relevant question s))) = cache (self s))
  /\ (forall question,
        cache (self (final_sys (query_stream never_relevant question s))) = cache (self s))
  /\ (forall c, cache (self (state_after never_relevant c s)) <> cache (self s) ->
                writes_cache c = true)
  /\ fst (query never_relevant "Something else" s)
     = Ok {| answer := "reply"; cache_hit := false; cache_info := None |}.
Proof.
  intros s.
  assert (H1 : check_is_read_only never_relevant) by (intros q k c w; reflexivity).
  assert (H2 : save_is_read_only never_relevant) by (intros f c w; reflexivity).
  do 2 (split; [assumption|]).
  destruct (cache_written_only_by_loaders never_relevant s H1) as (Hq & Hs & Hw).
  split; [exact Hq|]. split; [exact Hs|]. split; [exact (Hw H2)|].
  vm_compute. reflexivity.
Defined.

(** The document is judged relevant on the first pass: one retrieval, one
    grading call, the answer node, no rewrite. *)
Example relevant_on_first_pass :
  let run := graph_stream relevant RagWorkflow RECURSION_LIMIT "q" (chatbot [] 2 true) in
  nodes_of (yielded run) = [NGenerateQueryOrRespond; NRetrieve; NGenerateAnswer]
  /\ rewrites (yielded run) = 0%nat
  /\ grader_calls (calls (final_sys run)) = 1%nat
  /\ calls (final_sys run)
     = [CallResponseModelWithTools [HumanMessage "q"];
        CallRetriever "taskflow";
        CallGraderModel (GRADE_PROMPT "q" "doc");
        CallResponseModel (GENERATE_PROMPT "q" "doc")]
  /\ fst (query relevant "q" (chatbot [] 2 true))
     = Ok {| answer := "reply"; cache_hit := false; cache_info := None |}.
Proof. repeat split; by vm_compute. Qed.

(** The events of a streamed query that exhausts a budget of one rewrite. *)
Example stream_of_one_rewrite :
  yielded (query_stream never_relevant "q" (chatbot [] 1 true))
  = [EvCacheMiss;
     EvNodeUpdate "generate_query_or_respond" [AIMessage "" [search_call "taskflow"]];
     EvNodeUpdate "retrieve" [ToolMessage "doc" "call_1"];
     EvNodeUpdate "rewrite_question" [HumanMessage "reply"];
     EvNodeUpdate "generate_query_or_respond" [AIMessage "" [search_call "taskflow"]];
     EvNodeUpdate "retrieve" [ToolMessage "doc" "call_1"];
     EvNodeUpdate "generate_fallback" [AIMessage "reply" []];
     EvComplete (Some "reply")].
Proof. by vm_compute. Qed.

(** When the grader fails, the update of the retrieve node has been
    reported before the exception reaches the caller of [query_stream]. *)
Example stream_on_grader_failure :
  yielded (query_stream grader_timing_out "q" (chatbot [] 2 true))
  = [EvCacheMiss;
     EvNodeUpdate "generate_query_or_respond" [AIMessage "" [search_call "taskflow"]];
     EvNodeUpdate "retrieve" [ToolMessage "doc" "call_1"]]
  /\ ending (query_stream grader_timing_out "q" (chatbot [] 2 true)) = Raise provider_timeout
  /\ fst (query grader_timing_out "q" (chatbot [] 2 true)) = Raise provider_timeout.
Proof. repeat split; by vm_compute. Qed.

(** A run that needs as many steps as the ceiling allows reports them all
    and is then stopped; one more step of room lets it end. *)
Example ceiling_at_last_step :
  let stopped := graph_stream never_relevant RagWorkflow 9 "q" (chatbot [] 2 true) in
  let ended := graph_stream never_relevant RagWorkflow 10 "q" (chatbot [] 2 true) in
  nodes_of (yielded stopped) = retry_cycles 2
  /\ ending stopped = Raise (GraphRecursionError 9)
  /\ yielded ended = yielded stopped
  /\ ending ended = Ok tt.
Proof. repeat split; by vm_compute. Qed.

(** * Further properties of the workflow and of the methods *)

Section Workflow.
Context {Cache World : Type} (ext : @Collaborators Cache World).

Local Abbreviation Sys := (@Sys Cache World).
Local Open Scope list_scope.

Ltac unfold_monad :=
  cbv beta iota delta [bind ret raise get_self try_except external on_cache
                       first_item last_item] in *.

Ltac run_graph_cases n state s u s1 r s2 En Er :=
  cbn [run_graph];
  destruct (run_node ext n state s) as [[u|?e] s1] eqn:En;
  [ destruct (route_after ext n (apply_update state u) s1) as [[r|?e] s2] eqn:Er | ].

(** ** Length of a run *)

(** A successful step that goes on leaves strictly fewer steps to make, and
    enters the rewrite node only below the budget. *)
Lemma graph_step_next n state s u state' n' s1 :
  graph_step ext n state s = (Ok (u, state', Goto n'), s1) ->
  (n = NRewriteQuestion -> retry_count state < max_retries (self s)) ->
  (n' = NRewriteQuestion -> retry_count state' < max_retries (self s1))
  /\ (steps_needed (max_retries (self s1)) n' state'
      < steps_needed (max_retries (self s)) n state)%nat.
Proof.
  intros E Hpre. pose proof (graph_step_self _ _ _ _ _ _ E) as Hs. rewrite Hs.
  apply graph_step_ok in E. destruct E as [-> Hn].
  unfold steps_needed. cbn [apply_update retry_count].
  destruct n; cbn in Hn.
  - destruct Hn as (text & tcs & -> & Hr). cbn.
    destruct tcs; inversion Hr; subst. split; [done | lia].
  - destruct Hn as (-> & _ & Hr). cbn.
    destruct Hr as [Hr|[Hr|[Hr Hlt]]]; inversion Hr; subst; split; (done || lia).
  - destruct Hn as (text & -> & Hr). inversion Hr; subst. cbn.
    specialize (Hpre eq_refl). split; [done | lia].
  - by destruct Hn as (text & tcs & -> & Hr).
  - by destruct Hn as (text & tcs & -> & Hr).
Qed.

Lemma steps_needed_pos budget n state : (1 <= steps_needed budget n state)%nat.
Proof. unfold steps_needed. destruct n; lia. Qed.

Lemma run_graph_length limit fuel n state s :
  (n = NRewriteQuestion -> retry_count state < max_retries (self s)) ->
  (length (yielded (run_graph ext limit fuel n state s))
   <= Nat.min fuel (steps_needed (max_retries (self s)) n state))%nat.
Proof.
  revert n state s. induction fuel as [|fuel IH]; intros n state s Hpre.
  { unfold yielded. cbn. lia. }
  pose proof (steps_needed_pos (max_retries (self s)) n state) as Hpos.
  run_graph_cases n state s u s1 r s2 En Er.
  2,3: unfold yielded; cbn [fst length]; lia.
  destruct fuel as [|fuel']; [unfold yielded; cbn [fst length]; lia|].
  destruct r as [n'|].
  - pose proof (graph_step_of_parts _ _ _ _ _ _ _ _ En Er) as E.
    destruct (graph_step_next _ _ _ _ _ _ _ E Hpre) as [Hpre' Hlt].
    specialize (IH n' (apply_update state u) s2 Hpre').
    destruct (run_graph ext limit (S fuel') n' (apply_update state u) s2) as [[steps o] s3].
    unfold yielded in *. cbn [fst length] in *. lia.
  - unfold yielded. cbn [fst length]. lia.
Qed.


(** X1.  A run of the workflow makes at most [3 * (max_retries + 1)] steps
    ([max_retries] counted as 0 when negative) and at most [recursion_limit]
    steps, whatever the collaborators reply. *)
Theorem run_length_bounded (recursion_limit : nat)
    (question : string) (s : Sys) :
  (length (yielded (graph_stream ext RagWorkflow recursion_limit question s))
   <= Nat.min recursion_limit (3 * (Z.to_nat (max_retries (self s)) + 1)))%nat.
Proof.
  unfold graph_stream.
  pose proof (run_graph_length recursion_limit recursion_limit NGenerateQueryOrRespond
                (initial_state question) s) as H.
  unfold steps_needed in H. cbn in H. rewrite Z.sub_0_r in H.
  etransitivity; [apply H; done|]. lia.
Qed.


(** ** The calls a query makes *)

Lemma logs_only_ret P {A} (a : A) : logs_only P (ret (Cache:=Cache) (World:=World) a).
Proof. intros s. exists []. by rewrite app_nil_r. Qed.

Lemma logs_only_raise P {A} (e : PyExn) :
  logs_only P (raise (Cache:=Cache) (World:=World) (A:=A) e).
Proof. intros s. exists []. by rewrite app_nil_r. Qed.

Lemma logs_only_get_self P : logs_only P (get_self (Cache:=Cache) (World:=World)).
Proof. intros s. exists []. by rewrite app_nil_r. Qed.

Lemma logs_only_external (P : ExternalCall -> Prop) {A} c (f : World -> outcome A * World) :
  P c -> logs_only P (external (Cache:=Cache) c f).
Proof.
  intros Hc s. exists [c]. unfold external. destruct (f (world s)). cbn.
  split; [done|]. by repeat constructor.
Qed.

Lemma logs_only_bind P {A B} (c : @M Cache World A) (k : A -> @M Cache World B) :
  logs_only P c -> (forall a, logs_only P (k a)) -> logs_only P (bind c k).
Proof.
  intros Hc Hk s. unfold bind. destruct (Hc s) as (l & Hl & HP).
  destruct (c s) as [[a|e] s1]; cbn in *; [|by exists l].
  destruct (Hk a s1) as (l' & Hl' & HP'). exists (l ++ l').
  rewrite Hl', Hl, app_assoc. split; [done|]. by apply Forall_app.
Qed.

Lemma logs_only_try_except P {A} (c : @M Cache World A) (h : PyExn -> @M Cache World A) :
  logs_only P c -> (forall e, logs_only P (h e)) -> logs_only P (try_except c h).
Proof.
  intros Hc Hh s. unfold try_except. destruct (Hc s) as (l & Hl & HP).
  destruct (c s) as [[a|e] s1]; cbn in *; [by exists l|].
  destruct (Hh e s1) as (l' & Hl' & HP'). exists (l ++ l').
  rewrite Hl', Hl, app_assoc. split; [done|]. by apply Forall_app.
Qed.

Ltac logs_only_tac :=
  repeat first
    [ apply logs_only_ret | apply logs_only_raise | apply logs_only_get_self
    | apply logs_only_external; exact I
    | apply logs_only_bind; [|intros ?]
    | apply logs_only_try_except; [|intros ?]
    | match goal with
      | |- logs_only _ (if ?b then _ else _) => destruct b
      | |- logs_only _ (match ?x with _ => _ end) => destruct x
      end ].

Lemma logs_only_run_tool_calls tcs : logs_only is_workflow_call (run_tool_calls ext tcs).
Proof.
  induction tcs as [|tc tcs IH]; cbn [run_tool_calls]; [apply logs_only_ret|].
  apply logs_only_bind.
  - unfold run_tool_call, retrieve_documents. logs_only_tac.
  - intros m. apply logs_only_bind; [exact IH|]. intros ms. apply logs_only_ret.
Qed.

(** A step of the workflow calls nothing but the retriever and the models. *)
Lemma logs_only_graph_step n state : logs_only is_workflow_call (graph_step ext n state).
Proof.
  unfold graph_step. apply logs_only_bind.
  - destruct n; cbn [run_node];
      unfold generate_query_or_respond, tool_node, rewrite_question, generate_answer,
             generate_fallback, first_item, last_item.
    2:{ destruct (last (messages state)) as [[| |]|]; try apply logs_only_raise.
        apply logs_only_bind; [apply logs_only_run_tool_calls|].
        intros ms. apply logs_only_ret. }
    all: logs_only_tac.
  - intros u. apply logs_only_bind; [|intros r; apply logs_only_ret].
    destruct n; cbn [route_after]; try apply logs_only_ret.
    + unfold tools_condition. logs_only_tac.
    + apply logs_only_bind; [|intros d; apply logs_only_ret].
      unfold grade_documents, first_item, last_item. logs_only_tac.
Qed.

Lemma run_graph_calls limit fuel n state s :
  exists l, calls (final_sys (run_graph ext limit fuel n state s)) = calls s ++ l
            /\ Forall is_workflow_call l.
Proof.
  revert n state s. induction fuel as [|fuel IH]; intros n state s.
  { exists []. by rewrite app_nil_r. }
  destruct (logs_only_graph_step n state s) as (l & Hl & HP).
  unfold graph_step, bind in Hl.
  run_graph_cases n state s u s1 r s2 En Er; cbn [snd ret] in Hl.
  2,3: by exists l.
  destruct fuel as [|fuel']; [by exists l|].
  destruct r as [n'|]; [|by exists l].
  destruct (IH n' (apply_update state u) s2) as (l' & Hl' & HP').
  destruct (run_graph ext limit (S fuel') n' (apply_update state u) s2) as [[steps o] s3].
  unfold final_sys in *. cbn [snd] in *. exists (l ++ l').
  rewrite Hl', Hl, app_assoc. split; [done|]. by apply Forall_app.
Qed.

(** Where [query] and [query_stream] stop: after the cache check, or at the
    end of the run started from there. *)
Lemma query_final_sys (question : string) (s : Sys) :
  snd (query ext question s) = after_check ext question s
  \/ snd (query ext question s)
     = final_sys (graph_stream ext RagWorkflow RECURSION_LIMIT question
                    (after_check ext question s)).
Proof.
  destruct (cache_check ext question 1 (cache (self s)) (world s))
    as [[[lookup|e] c'] w'] eqn:Hc; rewrite (after_check_eq _ _ _ _ _ _ Hc).
  2:{ left. unfold query, bind. by rewrite (on_cache_check_eq _ _ _ _ _ _ Hc). }
  destruct (hit lookup) eqn:Hh.
  { left. unfold query, bind. rewrite (on_cache_check_eq _ _ _ _ _ _ Hc), Hh.
    unfold best_match_of. by destruct (best_match lookup). }
  rewrite (query_miss_eq _ _ _ _ _ _ Hc Hh).
  destruct (graph (self s)) as [[]|]; [right|by left]. cbv zeta.
  destruct (ending _) as [[]|e].
  - destruct (last (map step_update _)) as [result|]; [|done].
    by destruct (last (upd_messages result)).
  - by destruct (mentions_recursion e).
Qed.

Lemma query_stream_final_sys (question : string) (s : Sys) :
  final_sys (query_stream ext question s) = after_check ext question s
  \/ final_sys (query_stream ext question s)
     = final_sys (graph_stream ext RagWorkflow RECURSION_LIMIT question
                    (after_check ext question s)).
Proof.
  destruct (cache_check ext question 1 (cache (self s)) (world s))
    as [[[lookup|e] c'] w'] eqn:Hc; rewrite (after_check_eq _ _ _ _ _ _ Hc).
  2:{ left. unfold query_stream. by rewrite (on_cache_check_eq _ _ _ _ _ _ Hc). }
  destruct (hit lookup) eqn:Hh.
  { left. unfold query_stream. rewrite (on_cache_check_eq _ _ _ _ _ _ Hc), Hh.
    unfold best_match_of. by destruct (best_match lookup). }
  destruct (graph (self s)) as [[]|] eqn:Hg.
  2:{ left. unfold query_stream. rewrite (on_cache_check_eq _ _ _ _ _ _ Hc), Hh.
      unfold checked. cbn [self graph]. by rewrite Hg. }
  right. rewrite (query_stream_miss_eq _ _ _ _ _ _ _ Hc Hh Hg). cbv zeta.
  destruct (ending _) as [[]|e]; [done|]. by destruct (mentions_recursion e).
Qed.

Lemma after_check_calls (question : string) (s : Sys) :
  calls (after_check ext question s) = calls s ++ [CallCacheCheck question 1]
  /\ max_retries (self (after_check ext question s)) = max_retries (self s)
  /\ graph (self (after_check ext question s)) = graph (self s).
Proof.
  destruct (cache_check ext question 1 (cache (self s)) (world s)) as [[r c'] w'] eqn:Hc.
  by rewrite (after_check_eq _ _ _ _ _ _ Hc).
Qed.

(** X3.  A call of [query] or [query_stream] makes exactly one cache
    operation, the check of the question, and makes it first; every later
    call is to the retriever, the response model or the grader model: the
    workflow never adds to the cache, saves it, opens a file or touches the
    document store. *)
Theorem query_calls (question : string) (s : Sys) :
  (exists l, calls (snd (query ext question s))
             = calls s ++ CallCacheCheck question 1 :: l
             /\ Forall is_workflow_call l)
  /\ (exists l, calls (final_sys (query_stream ext question s))
                = calls s ++ CallCacheCheck question 1 :: l
                /\ Forall is_workflow_call l).
Proof.
  destruct (after_check_calls question s) as (Hc & _ & _).
  destruct (run_graph_calls RECURSION_LIMIT RECURSION_LIMIT NGenerateQueryOrRespond
              (initial_state question) (after_check ext question s)) as (l & Hl & HP).
  fold (graph_stream ext RagWorkflow RECURSION_LIMIT question (after_check ext question s))
    in Hl.
  rewrite Hc, <- app_assoc in Hl. cbn [app] in Hl.
  split.
  - destruct (query_final_sys question s) as [-> | ->]; [exists []|exists l]; [|done].
    by rewrite Hc.
  - destruct (query_stream_final_sys question s) as [-> | ->]; [exists []|exists l]; [|done].
    by rewrite Hc.
Qed.

(** ** How often the grader is asked *)

Lemma no_grader_ret {A} (a : A) : no_grader_call (ret (Cache:=Cache) (World:=World) a).
Proof. by intros s. Qed.

Lemma no_grader_raise {A} (e : PyExn) :
  no_grader_call (raise (Cache:=Cache) (World:=World) (A:=A) e).
Proof. by intros s. Qed.

Lemma no_grader_external {A} c (f : World -> outcome A * World) :
  is_grader_call c = false -> no_grader_call (external (Cache:=Cache) c f).
Proof.
  intros Hc s. unfold external. destruct (f (world s)). cbn [snd calls].
  by rewrite grader_calls_snoc, Hc, Nat.add_0_r.
Qed.

Lemma no_grader_bind {A B} (c : @M Cache World A) (k : A -> @M Cache World B) :
  no_grader_call c -> (forall a, no_grader_call (k a)) -> no_grader_call (bind c k).
Proof.
  intros Hc Hk s. unfold bind. specialize (Hc s).
  destruct (c s) as [[a|e] s1]; cbn in *; [|done].
  by rewrite Hk.
Qed.

Lemma no_grader_try_except {A} (c : @M Cache World A) (h : PyExn -> @M Cache World A) :
  no_grader_call c -> (forall e, no_grader_call (h e)) -> no_grader_call (try_except c h).
Proof.
  intros Hc Hh s. unfold try_except. specialize (Hc s).
  destruct (c s) as [[a|e] s1]; cbn in *; [done|].
  by rewrite Hh.
Qed.

Ltac no_grader_tac :=
  repeat first
    [ apply no_grader_ret | apply no_grader_raise
    | apply no_grader_external; reflexivity
    | apply no_grader_bind; [|intros ?]
    | apply no_grader_try_except; [|intros ?]
    | match goal with
      | |- no_grader_call (if ?b then _ else _) => destruct b
      | |- no_grader_call (match ?x with _ => _ end) => destruct x
      end ].

Lemma no_grader_run_tool_calls tcs : no_grader_call (run_tool_calls ext tcs).
Proof.
  induction tcs as [|tc tcs IH]; cbn [run_tool_calls]; [apply no_grader_ret|].
  apply no_grader_bind.
  - unfold run_tool_call, retrieve_documents. no_grader_tac.
  - intros m. apply no_grader_bind; [exact IH|]. intros ms. apply no_grader_ret.
Qed.

Lemma no_grader_run_node n state : no_grader_call (run_node ext n state).
Proof.
  destruct n; cbn [run_node];
    unfold generate_query_or_respond, tool_node, rewrite_question, generate_answer,
           generate_fallback, first_item, last_item.
  2:{ destruct (last (messages state)) as [[| |]|]; try apply no_grader_raise.
      apply no_grader_bind; [apply no_grader_run_tool_calls|].
      intros ms. apply no_grader_ret. }
  all: no_grader_tac.
Qed.

(** [grade_documents] asks the grader at most once, and not at all once the
    budget is spent. *)
Lemma grade_documents_grader_calls state s :
  (grader_calls (calls (snd (grade_documents ext state s)))
   <= grader_calls (calls s)
      + (if (max_retries (self s) <=? retry_count state)%Z then 0 else 1))%nat.
Proof.
  unfold grade_documents. unfold_monad.
  destruct (messages state) as [|m0 l]; [cbn; lia|].
  destruct (last (m0 :: l)) as [ml|]; [|cbn; lia].
  destruct (max_retries (self s) <=? retry_count state)%Z; [cbn; lia|].
  destruct (grader_model_invoke ext _ (world s)) as [[score|e] w].
  - destruct (String.eqb score "yes"); cbn [snd calls];
      rewrite grader_calls_snoc; cbn; lia.
  - cbn [snd calls]. rewrite grader_calls_snoc. cbn. lia.
Qed.

Lemma graph_step_grader_calls n state s :
  (grader_calls (calls (snd (graph_step ext n state s)))
   <= grader_calls (calls s)
      + (if decide (n = NRetrieve)
         then if (max_retries (self s) <=? retry_count state)%Z then 0 else 1
         else 0))%nat.
Proof.
  unfold graph_step, bind at 1.
  pose proof (no_grader_run_node n state s) as Hrun.
  destruct (run_node ext n state s) as [[u|e] s1] eqn:E; cbn [snd] in *; [|lia].
  destruct (decide (n = NRetrieve)) as [->|Hn].
  - (* the update of the tool node leaves retry_count as it is *)
    assert (upd_retry_count u = None /\ self s1 = self s) as [Hu Hs].
    { cbn [run_node] in E. unfold tool_node in E.
      destruct (last (messages state)) as [[| |]|]; try discriminate.
      unfold bind in E.
      pose proof (keeps_self_run_tool_calls ext tool_calls s) as Hk.
      destruct (run_tool_calls ext tool_calls s) as [[ms|e] s2]; [|discriminate].
      inversion E; subst. done. }
    cbn [route_after]. unfold bind at 1. unfold bind at 1.
    pose proof (grade_documents_grader_calls (apply_update state u) s1) as Hg.
    cbn [apply_update retry_count] in Hg. rewrite Hu, Hs in Hg. cbn in Hg.
    rewrite Z.add_0_r in Hg.
    destruct (grade_documents ext (apply_update state u) s1) as [[d|e] s2];
      cbn [snd ret] in *; lia.
  - assert (Hr : no_grader_call (route_after ext n (apply_update state u))).
    { destruct n; cbn [route_after]; try done; try apply no_grader_ret.
      unfold tools_condition. no_grader_tac. }
    specialize (Hr s1). unfold bind.
    destruct (route_after ext n (apply_update state u) s1) as [[r|e] s2];
      cbn [snd ret] in *; lia.
Qed.

(** From any node, the grader calls still to come fit in what is left of
    the budget. *)
Lemma run_graph_grader_calls limit fuel n state s :
  (grader_calls (calls (final_sys (run_graph ext limit fuel n state s)))
   <= grader_calls (calls s)
      + match n with
        | NGenerateQueryOrRespond | NRetrieve =>
            Z.to_nat (max_retries (self s) - retry_count state)%Z
        | NRewriteQuestion => Z.to_nat (max_retries (self s) - retry_count state - 1)%Z
        | NGenerateAnswer | NGenerateFallback => 0
        end)%nat.
Proof.
  revert n state s. induction fuel as [|fuel IH]; intros n state s.
  { unfold final_sys. cbn [run_graph snd]. lia. }
  pose proof (graph_step_grader_calls n state s) as Hstep.
  assert (Hstop : forall s' : Sys,
             (grader_calls (calls s')
              <= grader_calls (calls s)
                 + (if decide (n = NRetrieve)
                    then if (max_retries (self s) <=? retry_count state)%Z then 0 else 1
                    else 0))%nat ->
             (grader_calls (calls s')
              <= grader_calls (calls s)
                 + match n with
                   | NGenerateQueryOrRespond | NRetrieve =>
                       Z.to_nat (max_retries (self s) - retry_count state)%Z
                   | NRewriteQuestion =>
                       Z.to_nat (max_retries (self s) - retry_count state - 1)%Z
                   | NGenerateAnswer | NGenerateFallback => 0
                   end)%nat).
  { intros s' H. destruct (decide (n = NRetrieve)) as [->|]; [|lia].
    destruct (Z.leb_spec (max_retries (self s)) (retry_count state)); lia. }
  unfold graph_step, bind in Hstep.
  run_graph_cases n state s u s1 r s2 En Er; cbn [snd ret] in Hstep.
  2,3: unfold final_sys; cbn [snd]; by apply Hstop.
  destruct fuel as [|fuel']; [unfold final_sys; cbn [snd]; by apply Hstop|].
  pose proof (graph_step_of_parts _ _ _ _ _ _ _ _ En Er) as E.
  pose proof (graph_step_self _ _ _ _ _ _ E) as Hs.
  apply graph_step_ok in E. destruct E as [_ Hn].
  destruct r as [n'|]; [|unfold final_sys; cbn [snd]; by apply Hstop].
  clear Hstop.
  specialize (IH n' (apply_update state u) s2).
  destruct (run_graph ext limit (S fuel') n' (apply_update state u) s2) as [[steps o] s3].
  rename s2 into s1', s3 into s2.
  unfold final_sys in *. cbn [snd] in *. rewrite Hs in IH.
  cbn [apply_update retry_count] in IH.
  destruct n; cbn in Hn.
  - destruct Hn as (text & tcs & -> & Hr). cbn in IH.
    destruct tcs; inversion Hr; subst.
    destruct (decide (NGenerateQueryOrRespond = NRetrieve)); [done|]. lia.
  - destruct Hn as (Hu & _ & Hr). rewrite Hu in IH. cbn in IH.
    destruct (decide (NRetrieve = NRetrieve)); [|done].
    destruct (Z.leb_spec (max_retries (self s)) (retry_count state));
      destruct Hr as [Hr|[Hr|[Hr Hlt]]]; inversion Hr; subst; lia.
  - destruct Hn as (text & -> & Hr). inversion Hr; subst. cbn in IH.
    destruct (decide (NRewriteQuestion = NRetrieve)); [done|]. lia.
  - by destruct Hn as (text & tcs & -> & Hr).
  - by destruct Hn as (text & tcs & -> & Hr).
Qed.

(** X4.  Whatever the collaborators reply, a query asks the grader model at
    most [max_retries] times (never, when [max_retries] is not positive). *)
Theorem grader_calls_bounded (question : string) (s : Sys) :
  (grader_calls (calls (snd (query ext question s)))
   <= grader_calls (calls s) + Z.to_nat (max_retries (self s)))%nat
  /\ (grader_calls (calls (final_sys (query_stream ext question s)))
      <= grader_calls (calls s) + Z.to_nat (max_retries (self s)))%nat.
Proof.
  destruct (after_check_calls question s) as (Hc & Hm & _).
  assert (Hcheck : grader_calls (calls (after_check ext question s))
                   = grader_calls (calls s)).
  { by rewrite Hc, grader_calls_snoc, Nat.add_0_r. }
  pose proof (run_graph_grader_calls RECURSION_LIMIT RECURSION_LIMIT
                NGenerateQueryOrRespond (initial_state question)
                (after_check ext question s)) as Hrun.
  fold (graph_stream ext RagWorkflow RECURSION_LIMIT question (after_check ext question s))
    in Hrun.
  rewrite Hcheck, Hm in Hrun.
  cbn [initial_state apply_update retry_count upd_retry_count default] in Hrun.
  rewrite Z.add_0_l, Z.sub_0_r in Hrun.
  split.
  - destruct (query_final_sys question s) as [-> | ->]; lia.
  - destruct (query_stream_final_sys question s) as [-> | ->]; lia.
Qed.

(** ** What the models are given *)




(** The call a model node makes, read on the log. *)
Lemma run_node_model_call n state s u s1 m0 rest :
  run_node ext n state s = (Ok u, s1) ->
  messages state = m0 :: rest ->
  match n with
  | NGenerateQueryOrRespond =>
      calls s1 = calls s ++ [CallResponseModelWithTools (messages state)]
  | NRetrieve => True
  | NRewriteQuestion =>
      calls s1 = calls s ++ [CallResponseModel (REWRITE_PROMPT (content m0))]
  | NGenerateAnswer =>
      exists mlast,
        last (messages state) = Some mlast
        /\ calls s1
           = calls s ++ [CallResponseModel (GENERATE_PROMPT (content m0) (content mlast))]
  | NGenerateFallback =>
      calls s1 = calls s ++ [CallResponseModel (FALLBACK_PROMPT (content m0))]
  end.
Proof.
  intros E Hm. destruct n; [| done | | |]; revert E; cbn [run_node].
  - unfold generate_query_or_respond. unfold_monad.
    destruct (response_model_bind_tools_invoke ext _ _) as [[[text tcs]|e] w];
      [|discriminate].
    intros H; by inversion H.
  - unfold rewrite_question. rewrite Hm. unfold_monad.
    destruct (response_model_invoke ext _ _) as [[[text tcs]|e] w]; [|discriminate].
    intros H; by inversion H.
  - unfold generate_answer. rewrite Hm. unfold_monad.
    destruct (last (m0 :: rest)) as [ml|]; [|discriminate].
    destruct (response_model_invoke ext _ _) as [[[text tcs]|e] w]; [|discriminate].
    intros H; inversion H. by exists ml.
  - unfold generate_fallback. rewrite Hm. unfold_monad.
    destruct (response_model_invoke ext _ _) as [[[text tcs]|e] w]; [|discriminate].
    intros H; by inversion H.
Qed.

(** X5.  Every rewrite request and the fallback request are built from the
    original question alone: however many rewrites were made, the rewrite
    node sends the model the same prompt, and the fallback prompt holds no
    retrieved context. *)
Theorem rewrite_and_fallback_prompts (recursion_limit : nat)
    (question : string) (s : Sys) :
  Forall (fun st =>
            (step_node st = NRewriteQuestion ->
             last (calls (step_sys st))
             = Some (CallResponseModel (REWRITE_PROMPT question)))
            /\ (step_node st = NGenerateFallback ->
                last (calls (step_sys st))
                = Some (CallResponseModel (FALLBACK_PROMPT question))))
         (yielded (graph_stream ext RagWorkflow recursion_limit question s)).
Proof.
  unfold graph_stream.
  apply (run_graph_Forall ext
           (fun _ state => exists earlier, messages state = HumanMessage question :: earlier)).
  3:{ by exists []. }
  - intros n state s0 u s1 [earlier He] E.
    pose proof (run_node_model_call _ _ _ _ _ _ _ E He) as Hcall.
    cbn [step_node step_sys].
    split; intros ->; rewrite Hcall; apply last_snoc.
  - intros n state s0 u state' n' s2 [earlier He] E.
    apply graph_step_ok in E. destruct E as [-> _].
    exists (earlier ++ upd_messages u). cbn. by rewrite He.
Qed.


(** X7.  On every pass the response model is given the whole conversation
    so far: it starts with the original question and ends with a user
    message, the question itself on the first pass and the latest rewrite
    afterwards; the reply is appended to it. *)
Theorem respond_sees_conversation (recursion_limit : nat)
    (question : string) (s : Sys) :
  Forall (fun st =>
            step_node st = NGenerateQueryOrRespond ->
            exists input current,
              last (calls (step_sys st)) = Some (CallResponseModelWithTools input)
              /\ messages (step_state st) = input ++ upd_messages (step_update st)
              /\ input !! 0%nat = Some (HumanMessage question)
              /\ last input = Some (HumanMessage current))
         (yielded (graph_stream ext RagWorkflow recursion_limit question s)).
Proof.
  unfold graph_stream.
  apply (run_graph_Forall ext
           (fun n state =>
              (exists earlier, messages state = HumanMessage question :: earlier)
              /\ (n = NGenerateQueryOrRespond ->
                  exists current, last (messages state) = Some (HumanMessage current)))).
  3:{ split; [by exists []|]. intros _. by exists question. }
  - intros n state s0 u s1 ([earlier He] & Hcur) E.
    pose proof (run_node_model_call _ _ _ _ _ _ _ E He) as Hcall.
    cbn [step_node step_sys step_state step_update apply_update messages].
    intros ->. destruct (Hcur eq_refl) as [current Hl].
    exists (messages state), current. rewrite Hcall, last_snoc. rewrite He in *. done.
  - intros n state s0 u state' n' s2 ([earlier He] & Hcur) E.
    apply graph_step_ok in E. destruct E as [-> Hn].
    cbn [apply_update messages]. split.
    + exists (earlier ++ upd_messages u). by rewrite He.
    + intros ->. destruct n; cbn in Hn.
      * destruct Hn as (text & tcs & _ & Hr'). destruct tcs; discriminate.
      * destruct Hn as (_ & _ & [Hr'|[Hr'|[Hr' _]]]); discriminate.
      * destruct Hn as (text & -> & _). exists text. cbn. by rewrite last_snoc.
      * destruct Hn as (text & tcs & _ & Hr'). discriminate.
      * destruct Hn as (text & tcs & _ & Hr'). discriminate.
Qed.

(** ** Where the answer comes from *)



(** ** The retry counter and the size of a stream *)

Lemma rewrites_app (l1 l2 : list (@Step Cache World)) :
  rewrites (l1 ++ l2) = (rewrites l1 + rewrites l2)%nat.
Proof. unfold rewrites, nodes_of. by rewrite map_app, filter_app, length_app. Qed.

Lemma rewrites_take_le (k1 k2 : nat) (l : list (@Step Cache World)) :
  (k1 <= k2)%nat -> (rewrites (take k1 l) <= rewrites (take k2 l) <= rewrites l)%nat.
Proof.
  intros Hk. split.
  - replace k2 with (k1 + (k2 - k1))%nat by lia.
    rewrite <- take_take_drop, rewrites_app. lia.
  - rewrite <- (take_drop k2 l) at 2. rewrite rewrites_app. lia.
Qed.

(** X9.  Along a run [retry_count] starts at 0, never decreases and never
    exceeds [max_retries] (0 when [max_retries] is negative). *)
Theorem retry_count_range (recursion_limit : nat)
    (question : string) (s : Sys) (i j : nat) (st_i st_j : @Step Cache World) :
  yielded (graph_stream ext RagWorkflow recursion_limit question s) !! i = Some st_i ->
  yielded (graph_stream ext RagWorkflow recursion_limit question s) !! j = Some st_j ->
  (i <= j)%nat ->
  0 <= retry_count (step_state st_i)
  /\ retry_count (step_state st_i) <= retry_count (step_state st_j)
  /\ retry_count (step_state st_j) <= Z.max 0 (max_retries (self s)).
Proof.
  unfold graph_stream. intros Hi Hj Hle.
  rewrite (run_graph_retry_count _ _ _ _ _ _ _ _ Hi),
          (run_graph_retry_count _ _ _ _ _ _ _ _ Hj).
  pose proof (run_graph_rewrites_bounded ext recursion_limit recursion_limit
                NGenerateQueryOrRespond (initial_state question) s) as Hb.
  assert (H0 : retry_count (initial_state question) = 0) by reflexivity.
  rewrite H0 in *. specialize (Hb ltac:(done)).
  pose proof (rewrites_take_le (S i) (S j)
                (yielded (run_graph ext recursion_limit recursion_limit
                            NGenerateQueryOrRespond (initial_state question) s))) as Ht.
  lia.
Qed.

(** X10.  A streamed query yields at most two events more than the
    workflow makes steps: at most 52, and at most
    [3 * (max_retries + 1) + 2]. *)
Theorem stream_length_bounded (question : string) (s : Sys) :
  (length (yielded (query_stream ext question s))
   <= 2 + Nat.min RECURSION_LIMIT (3 * (Z.to_nat (max_retries (self s)) + 1)))%nat.
Proof.
  destruct (cache_check ext question 1 (cache (self s)) (world s))
    as [[[lookup|e] c'] w'] eqn:Hc.
  2:{ unfold query_stream. rewrite (on_cache_check_eq _ _ _ _ _ _ Hc). cbn. lia. }
  destruct (hit lookup) eqn:Hh.
  { unfold query_stream. rewrite (on_cache_check_eq _ _ _ _ _ _ Hc), Hh.
    unfold best_match_of. destruct (best_match lookup); cbn; lia. }
  destruct (graph (self s)) as [g|] eqn:Hg.
  2:{ unfold query_stream. rewrite (on_cache_check_eq _ _ _ _ _ _ Hc), Hh.
      cbn [self graph checked]. rewrite Hg. cbn. lia. }
  rewrite (query_stream_miss_eq _ _ _ _ _ _ _ Hc Hh Hg). cbv zeta.
  pose proof (run_graph_length RECURSION_LIMIT RECURSION_LIMIT NGenerateQueryOrRespond
                (initial_state question) (checked s question c' w')) as Hlen.
  fold (graph_stream ext g RECURSION_LIMIT question (checked s question c' w')) in Hlen.
  unfold steps_needed in Hlen.
  assert (H0 : retry_count (initial_state question) = 0) by reflexivity.
  rewrite H0, Z.sub_0_r in Hlen. cbn [checked self max_retries] in Hlen.
  specialize (Hlen ltac:(done)).
  destruct (ending _) as [[]|e]; [|destruct (mentions_recursion e)];
    unfold yielded at 1; cbn [fst length];
    rewrite ?length_app, length_map; cbn [length]; lia.
Qed.

(** ** Setting up the graph *)

(** The first thing a run does is to ask the response model, with the
    conversation as it stands. *)
Lemma run_graph_first_call limit fuel state s :
  exists l,
    calls (final_sys (run_graph ext limit (S fuel) NGenerateQueryOrRespond state s))
    = calls s ++ CallResponseModelWithTools (messages state) :: l
    /\ Forall is_workflow_call l.
Proof.
  assert (Hstep : exists l0,
             calls (snd (graph_step ext NGenerateQueryOrRespond state s))
             = calls s ++ CallResponseModelWithTools (messages state) :: l0
             /\ Forall is_workflow_call l0).
  { exists []. unfold graph_step. cbn [run_node route_after].
    unfold generate_query_or_respond, tools_condition. unfold_monad.
    destruct (response_model_bind_tools_invoke ext _ _) as [[[text tcs]|e] w]; [|done].
    cbn [apply_update messages upd_messages fst snd]. rewrite last_snoc.
    by destruct tcs. }
  destruct Hstep as (l0 & Hl0 & HP0).
  unfold graph_step, bind in Hl0.
  run_graph_cases NGenerateQueryOrRespond state s u s1 r s2 En Er; cbn [snd ret] in Hl0.
  2,3: by exists l0.
  destruct fuel as [|fuel']; [by exists l0|].
  destruct r as [n'|]; [|by exists l0].
  destruct (run_graph_calls limit (S fuel') n' (apply_update state u) s2) as (l & Hl & HP).
  destruct (run_graph ext limit (S fuel') n' (apply_update state u) s2) as [[steps o] s3].
  unfold final_sys in *. cbn [snd] in *. exists (l0 ++ l).
  rewrite Hl, Hl0, <- app_assoc. split; [done|]. by apply Forall_app.
Qed.

(** On a miss with the graph set up, [query] stops where the run stops. *)
Lemma query_miss_final_sys (s : Sys) (question : string) lookup c' w' g :
  cache_check ext question 1 (cache (self s)) (world s) = (Ok lookup, c', w') ->
  hit lookup = false ->
  graph (self s) = Some g ->
  snd (query ext question s)
  = final_sys (graph_stream ext g RECURSION_LIMIT question (checked s question c' w')).
Proof.
  intros Hc Hh Hg. rewrite (query_miss_eq _ _ _ _ _ _ Hc Hh), Hg. cbv zeta.
  destruct (ending _) as [[]|e].
  - destruct (last (map step_update _)) as [result|]; [|done].
    by destruct (last (upd_messages result)).
  - by destruct (mentions_recursion e).
Qed.

(** X11.  [load_existing_vectorstore] asks the document store to load and,
    when the store reports success, sets up the graph: it asks the store for
    its retriever with [k = 4], then keeps the [retrieve_documents] tool and
    the compiled graph, and changes nothing else of the chatbot.  When the
    store reports failure the retriever is not asked for; then, and when the
    store raises, the chatbot is left as it was.  An exception raised when
    the retriever is asked for is raised by [load_existing_vectorstore], with
    the chatbot left as it was.  After a successful load, a query that misses
    the cache runs the workflow: right after the cache check the response
    model is asked with the question as the only message. *)
Theorem load_existing_vectorstore_then_query (s : Sys) :
  (forall r s1, load_existing_vectorstore ext s = (r, s1) ->
                r <> Ok true -> self s1 = self s)
  /\ (forall s1, load_existing_vectorstore ext s = (Ok false, s1) ->
                 calls s1 = calls s ++ [CallDocStoreLoad])
  /\ (forall w e w',
        doc_store_load_existing ext (world s) = (Ok true, w) ->
        doc_store_get_retriever ext 4 w = (Raise e, w') ->
        load_existing_vectorstore ext s
        = (Raise e, {| self := self s; world := w';
                       calls := calls s ++ [CallDocStoreLoad; CallGetRetriever 4] |}))
  /\ (forall s1,
        load_existing_vectorstore ext s = (Ok true, s1) ->
        graph (self s1) = Some RagWorkflow
        /\ retriever_tool (self s1) = Some retrieve_documents_tool
        /\ cache (self s1) = cache (self s)
        /\ max_retries (self s1) = max_retries (self s)
        /\ calls s1 = calls s ++ [CallDocStoreLoad; CallGetRetriever 4]
        /\ forall question lookup c' w',
             cache_check ext question 1 (cache (self s1)) (world s1) = (Ok lookup, c', w') ->
             hit lookup = false ->
             exists l,
               calls (snd (query ext question s1))
               = calls s1 ++ CallCacheCheck question 1
                   :: CallResponseModelWithTools [HumanMessage question] :: l
               /\ Forall is_workflow_call l).
Proof.
  unfold load_existing_vectorstore, setup_graph, bind, external, ret.
  destruct (doc_store_load_existing ext (world s)) as [[[]|e] w].
  2:{ split; [|split; [|split]].
      - intros r s1 H Hr. by inversion H.
      - intros s1 H. by inversion H.
      - intros w0 e w' H. inversion H.
      - intros s1 H. inversion H. }
  2:{ split; [|split; [|split]].
      - intros r s1 H Hr. by inversion H.
      - intros s1 H. inversion H.
      - intros w0 e0 w' H. inversion H.
      - intros s1 H. inversion H. }
  cbn [world calls self].
  destruct (doc_store_get_retriever ext 4 w) as [[[]|e] w2] eqn:Eg.
  2:{ split; [|split; [|split]].
      - intros r s1 H Hr. by inversion H.
      - intros s1 H. inversion H.
      - intros w0 e0 w' H H'. inversion H; subst. rewrite Eg in H'. inversion H'; subst.
        by rewrite <- app_assoc.
      - intros s1 H. inversion H. }
  split; [|split; [|split]].
  - intros r s1 H Hr. inversion H; subst. done.
  - intros s1 H. inversion H.
  - intros w0 e0 w' H H'. inversion H; subst. rewrite Eg in H'. inversion H'.
  - intros s1 H. inversion H; subst; clear H.
    set (s1 := {| self := {| cache := cache (self s);
                             max_retries := max_retries (self s);
                             graph := Some RagWorkflow;
                             retriever_tool := Some retrieve_documents_tool |};
                  world := w2;
                  calls := (calls s ++ [CallDocStoreLoad]) ++ [CallGetRetriever 4] |}).
    do 4 (split; [done|]). split; [cbn; by rewrite <- app_assoc|].
    intros question lookup c' w' Hc Hh.
    rewrite (query_miss_final_sys s1 question lookup c' w' RagWorkflow Hc Hh eq_refl).
    destruct (run_graph_first_call RECURSION_LIMIT (pred RECURSION_LIMIT)
                (initial_state question) (checked s1 question c' w')) as (l & Hl & HP).
    exists l. split; [|exact HP].
    unfold graph_stream. change RECURSION_LIMIT with (S (pred RECURSION_LIMIT)) at 2.
    rewrite Hl. cbn [checked calls initial_state apply_update messages upd_messages app].
    by rewrite <- app_assoc.
Qed.

(** ** Reading the columns of a cache file *)

Lemma foldl_insert_keys_lookup (ks : list string)
    (d : gmap string (option string)) (key : string) :
  foldl (fun d k => <[k := None]> d) d ks !! key
  = if decide (key ∈ ks) then Some None else d !! key.
Proof.
  revert d. induction ks as [|k ks IH]; intros d; cbn [foldl].
  - destruct (decide (key ∈ [])) as [H|]; [by apply elem_of_nil in H | done].
  - rewrite IH. destruct (decide (key ∈ ks)) as [Hin|Hnin].
    + destruct (decide (key ∈ k :: ks)) as [|H]; [done|].
      exfalso. apply H. by apply list_elem_of_further.
    + destruct (decide (key = k)) as [->|Hne].
      * rewrite lookup_insert_eq.
        destruct (decide (k ∈ k :: ks)) as [|H]; [done|].
        exfalso. apply H. apply list_elem_of_here.
      * rewrite lookup_insert_ne by done.
        destruct (decide (key ∈ k :: ks)) as [H|]; [|done].
        apply elem_of_cons in H. tauto.
Qed.

Lemma foldl_insert_pairs_notin (kvs : list (string * string))
    (d : gmap string (option string)) (key : string) :
  key ∉ kvs.*1 ->
  foldl (fun d kv => <[fst kv := Some (snd kv)]> d) d kvs !! key = d !! key.
Proof.
  revert d. induction kvs as [|[k v] kvs IH]; intros d Hnin; cbn [foldl]; [done|].
  cbn in Hnin. apply not_elem_of_cons in Hnin. destruct Hnin as [Hne Hnin].
  rewrite IH by done. cbn. by rewrite lookup_insert_ne.
Qed.

Lemma foldl_insert_pairs_lookup (kvs : list (string * string))
    (d : gmap string (option string)) (key v : string) (i : nat) :
  NoDup kvs.*1 ->
  kvs !! i = Some (key, v) ->
  foldl (fun d kv => <[fst kv := Some (snd kv)]> d) d kvs !! key = Some (Some v).
Proof.
  revert d i. induction kvs as [|[k0 v0] kvs IH]; intros d i Hnd Hi; [done|].
  cbn in Hnd. apply NoDup_cons in Hnd. destruct Hnd as [Hnin Hnd].
  destruct i as [|i]; cbn in Hi.
  - inversion Hi; subst. cbn [foldl]. rewrite foldl_insert_pairs_notin by done.
    cbn. by rewrite lookup_insert_eq.
  - cbn [foldl]. eapply IH; eauto.
Qed.

(** With distinct field names, the value a row dict holds for the name of
    column [i] is field [i] of the row, or [None] when the row is too
    short. *)
Lemma dict_row_lookup (fieldnames row : list string) (i : nat) (key : string) :
  NoDup fieldnames ->
  fieldnames !! i = Some key ->
  dict_row fieldnames row !! key = Some (row !! i).
Proof.
  intros Hnd Hi. unfold dict_row. rewrite foldl_insert_keys_lookup.
  destruct (decide (key ∈ drop (length row) fieldnames)) as [Hin|Hnin].
  - apply list_elem_of_lookup in Hin. destruct Hin as [k Hk].
    rewrite lookup_drop in Hk.
    pose proof (NoDup_lookup _ _ _ _ Hnd Hi Hk) as ->.
    symmetry. f_equal. apply lookup_ge_None. lia.
  - destruct (decide (i < length row)%nat) as [Hlt|Hge].
    2:{ exfalso. apply Hnin. apply (list_elem_of_lookup_2 _ (i - length row)).
        rewrite lookup_drop. by replace (length row + (i - length row))%nat with i by lia. }
    destruct (lookup_lt_is_Some_2 row i Hlt) as [x Hx]. rewrite Hx.
    apply (foldl_insert_pairs_lookup _ _ _ _ i).
    + rewrite zip_fst_take. rewrite <- (take_drop (length row) fieldnames) in Hnd.
      apply NoDup_app in Hnd. tauto.
    + apply lookup_zip_with_Some. eauto.
Qed.

Lemma read_pairs_columns (fieldnames : list string) (rows : list (list string))
    (i j : nat) :
  NoDup fieldnames ->
  fieldnames !! i = Some "question" ->
  fieldnames !! j = Some "answer" ->
  read_pairs (map (dict_row fieldnames) rows)
  = Ok (map (fun row => (row !! i, row !! j)) rows).
Proof.
  intros Hnd Hi Hj. induction rows as [|row rows IH]; cbn [map read_pairs]; [done|].
  unfold getitem.
  rewrite (dict_row_lookup _ row _ _ Hnd Hi), (dict_row_lookup _ row _ _ Hnd Hj), IH.
  done.
Qed.

(** X12.  With distinct column names in the header, the pair read from a
    data row is made of the fields standing in the [question] and [answer]
    columns, wherever these columns are; a field the row is too short to
    hold is read as [None], the other fields are ignored, and blank rows give
    no pair. *)
Theorem load_reads_by_column (fieldnames : list string) (data : list (list string))
    (i j : nat) :
  NoDup fieldnames ->
  fieldnames !! i = Some "question" ->
  fieldnames !! j = Some "answer" ->
  read_pairs (DictReader (fieldnames :: data))
  = Ok (map (fun row => (row !! i, row !! j)) (filter (fun r => r <> []) data)).
Proof. intros Hnd Hi Hj. cbn [DictReader]. by apply read_pairs_columns. Qed.

Lemma filter_rows_of_pairs (pairs : list (string * string)) :
  filter (fun r : list string => r <> []) (map (fun p => [fst p; snd p]) pairs)
  = map (fun p => [fst p; snd p]) pairs.
Proof.
  induction pairs as [|p pairs IH]; [done|]. cbn [map].
  rewrite filter_cons. destruct (decide ([fst p; snd p] <> [])) as [_|H].
  - by rewrite IH.
  - exfalso. by apply H.
Qed.

(** X13.  A file holding the header [question,answer] and one row per pair
    loads exactly these pairs: [load_cache_from_file] on it does what
    [load_cache_pairs] does on the pairs, once the file has been read. *)
Theorem load_file_of_pairs (pairs : list (string * string)) (filepath : string)
    (s : Sys) (w' : World) :
  csv_reader ext filepath (world s) = (Ok (rows_of_pairs pairs), w') ->
  read_pairs (DictReader (rows_of_pairs pairs))
  = Ok (map (fun p => (Some (fst p), Some (snd p))) pairs)
  /\ load_cache_from_file ext filepath s
     = load_cache_pairs ext pairs
         {| self := self s; world := w'; calls := calls s ++ [CallOpenCsv filepath] |}.
Proof.
  intros Hcsv.
  assert (Hp : read_pairs (DictReader (rows_of_pairs pairs))
               = Ok (map (fun p => (Some (fst p), Some (snd p))) pairs)).
  { unfold rows_of_pairs. cbn [DictReader].
    rewrite filter_rows_of_pairs, (read_pairs_columns _ _ 0 1); [| |done..].
    - by rewrite map_map.
    - apply NoDup_cons. split; [|apply NoDup_singleton].
      intros H. apply list_elem_of_singleton in H. discriminate. }
  split; [exact Hp|].
  unfold load_cache_from_file, bind at 1, external. rewrite Hcsv.
  unfold bind. by rewrite Hp.
Qed.

Lemma filter_blank_rows (data : list (list string)) :
  Forall (fun r => r = []) data ->
  filter (fun r : list string => r <> []) data = [].
Proof.
  induction 1 as [|r data Hr _ IH]; [done|]. subst r.
  rewrite filter_cons. destruct (decide (@nil string <> [])) as [H|_]; [done|].
  exact IH.
Qed.

(** X14.  A file without a non-blank data row loads no pair and fails on
    nothing, even when its header lacks the columns or the file is empty:
    the header is only looked at when a data row is read. *)
Theorem load_without_data_rows (rows : list (list string)) (filepath : string)
    (s : Sys) (w' : World) :
  Forall (fun r => r = []) (tail rows) ->
  csv_reader ext filepath (world s) = (Ok rows, w') ->
  read_pairs (DictReader rows) = Ok []
  /\ load_cache_from_file ext filepath s
     = on_cache (CallCacheHydrate []) (cache_hydrate_from_pairs ext [])
         {| self := self s; world := w'; calls := calls s ++ [CallOpenCsv filepath] |}.
Proof.
  intros Hblank Hcsv.
  assert (Hp : read_pairs (DictReader rows) = Ok []).
  { destruct rows as [|fieldnames data]; [done|]. cbn [DictReader tail] in *.
    by rewrite (filter_blank_rows data Hblank). }
  split; [exact Hp|].
  unfold load_cache_from_file, bind at 1, external. rewrite Hcsv.
  unfold bind. by rewrite Hp.
Qed.

(** ** The retrieval tool *)

Lemma join_contains (sep : string) (parts : list string) (d : string) :
  d ∈ parts -> contains d (join sep parts) = true.
Proof.
  induction parts as [|p parts IH]; intros Hin; [by apply elem_of_nil in Hin|].
  apply elem_of_cons in Hin. cbn [join].
  destruct parts as [|p' parts].
  - destruct Hin as [->|Hin]; [apply contains_refl | by apply elem_of_nil in Hin].
  - destruct Hin as [->|Hin]; [apply contains_prefix|].
    do 2 apply contains_app_r. by apply IH.
Qed.

(** X15.  [retrieve_documents] asks the retriever once, with the query it
    was given; the text it returns holds the content of every document
    found, joined by blank lines, and is empty when nothing was found; a
    failure of the retriever is raised. *)
Theorem retrieve_documents_joins (query_text : string) (s : Sys) :
  calls (snd (retrieve_documents ext query_text s)) = calls s ++ [CallRetriever query_text]
  /\ match fst (retriever_invoke ext query_text (world s)) with
     | Ok docs =>
         fst (retrieve_documents ext query_text s) = Ok (join (NL +:+ NL) docs)
         /\ (forall d, d ∈ docs -> contains d (join (NL +:+ NL) docs) = true)
         /\ (docs = [] -> join (NL +:+ NL) docs = "")
     | Raise e => fst (retrieve_documents ext query_text s) = Raise e
     end.
Proof.
  unfold retrieve_documents. unfold_monad.
  destruct (retriever_invoke ext query_text (world s)) as [[docs|e] w]; cbn [fst snd calls].
  - split; [done|]. split; [done|]. split; [apply join_contains|]. by intros ->.
  - done.
Qed.

End Workflow.

(** * The further properties on concrete runs *)



(** In the run that exhausts a budget of two, the counter after the first
    rewrite (step 2) and after the fallback (step 8). *)
Lemma retry_count_range_witness :
  let steps := yielded (graph_stream never_relevant RagWorkflow RECURSION_LIMIT "q"
                          (chatbot [] 2 true)) in
  match steps !! 2%nat, steps !! 8%nat with
  | Some st_i, Some st_j =>
      steps !! 2%nat = Some st_i
      /\ steps !! 8%nat = Some st_j
      /\ (2 <= 8)%nat
      /\ 0 <= retry_count (step_state st_i)
      /\ retry_count (step_state st_i) <= retry_count (step_state st_j)
      /\ retry_count (step_state st_j) <= Z.max 0 (max_retries (self (chatbot [] 2 true)))
  | _, _ => False
  end.
Proof.
  intros steps.
  destruct (steps !! 2%nat) as [st_i|] eqn:Hi; [|vm_compute in Hi; discriminate].
  destruct (steps !! 8%nat) as [st_j|] eqn:Hj; [|vm_compute in Hj; discriminate].
  assert (Hle : (2 <= 8)%nat) by lia.
  do 3 (split; [done|]).
  exact (retry_count_range never_relevant RECURSION_LIMIT "q"
           (chatbot [] 2 true) 2 8 st_i st_j Hi Hj Hle).
Defined.

(** A chatbot without graph loads its vector store and is then asked a
    question its empty cache misses; with a store that cannot hand out its
    retriever, the load raises and the chatbot stays without graph. *)
Lemma load_existing_vectorstore_then_query_witness :
  let s := chatbot [] 2 false in
  let s1 := snd (load_existing_vectorstore never_relevant s) in
  let miss := {| hit := false; best_match := None |} in
  let e := without_retriever never_relevant in
  load_existing_vectorstore never_relevant s = (Ok true, s1)
  /\ cache_check never_relevant "q" 1 (cache (self s1)) (world s1) = (Ok miss, [], tt)
  /\ hit miss = false
  /\ doc_store_load_existing e (world s) = (Ok true, tt)
  /\ doc_store_get_retriever e 4 tt = (Raise store_failure, tt)
  /\ graph (self s1) = Some RagWorkflow
  /\ retriever_tool (self s1) = Some retrieve_documents_tool
  /\ calls s1 = [CallDocStoreLoad; CallGetRetriever 4]
  /\ (exists l,
        calls (snd (query never_relevant "q" s1))
        = calls s1 ++ CallCacheCheck "q" 1
            :: CallResponseModelWithTools [HumanMessage "q"] :: l
        /\ Forall is_workflow_call l)
  /\ load_existing_vectorstore e s
     = (Raise store_failure,
        {| self := self s; world := tt;
           calls := [CallDocStoreLoad; CallGetRetriever 4] |}).
Proof.
  intros s s1 miss e.
  assert (H1 : load_existing_vectorstore never_relevant s = (Ok true, s1)) by reflexivity.
  assert (H2 : cache_check never_relevant "q" 1 (cache (self s1)) (world s1)
               = (Ok miss, [], tt)) by reflexivity.
  assert (H3 : hit miss = false) by reflexivity.
  assert (H4 : doc_store_load_existing e (world s) = (Ok true, tt)) by reflexivity.
  assert (H5 : doc_store_get_retriever e 4 tt = (Raise store_failure, tt)) by reflexivity.
  do 5 (split; [assumption|]).
  destruct (load_existing_vectorstore_then_query never_relevant s) as (_ & _ & _ & Hload).
  destruct (Hload s1 H1) as (Hg & Ht & _ & _ & Hcalls & Hq).
  split; [exact Hg|]. split; [exact Ht|]. split; [exact Hcalls|].
  split; [exact (Hq "q" miss [] tt H2 H3)|].
  destruct (load_existing_vectorstore_then_query e s) as (_ & _ & Hfail & _).
  exact (Hfail tt store_failure tt H4 H5).
Defined.

(** A header with the columns in another order and one more column; a row
    with a surplus field, a blank row, a row too short for the question. *)
Lemma load_reads_by_column_witness :
  let fieldnames := ["id"; "answer"; "question"] in
  let data := [["7"; "a1"; "q1"; "x"]; []; ["8"; "a2"]] in
  NoDup fieldnames
  /\ fieldnames !! 2%nat = Some "question"
  /\ fieldnames !! 1%nat = Some "answer"
  /\ read_pairs (DictReader (fieldnames :: data))
     = Ok [(Some "q1", Some "a1"); (None, Some "a2")].
Proof.
  intros fieldnames data.
  assert (H1 : NoDup fieldnames).
  { unfold fieldnames. repeat (apply NoDup_cons; split);
      [| |  | apply NoDup_nil_2]; intros H; repeat (apply elem_of_cons in H;
      destruct H as [H|H]; [discriminate|]); by apply elem_of_nil in H. }
  assert (H2 : fieldnames !! 2%nat = Some "question") by reflexivity.
  assert (H3 : fieldnames !! 1%nat = Some "answer") by reflexivity.
  do 3 (split; [assumption|]).
  exact (load_reads_by_column fieldnames data 2 1 H1 H2 H3).
Defined.

(** The file written for the one seeded pair loads as [load_cache_pairs]
    loads the pair. *)
Lemma load_file_of_pairs_witness :
  let e := with_csv_rows (rows_of_pairs [taskflow_pair]) never_relevant in
  let s := chatbot [] 2 false in
  csv_reader e "cache.csv" (world s) = (Ok (rows_of_pairs [taskflow_pair]), tt)
  /\ read_pairs (DictReader (rows_of_pairs [taskflow_pair]))
     = Ok [(Some "What is TaskFlow?", Some "TaskFlow is a project tool.")]
  /\ load_cache_from_file e "cache.csv" s
     = load_cache_pairs e [taskflow_pair]
         {| self := self s; world := tt; calls := [CallOpenCsv "cache.csv"] |}
  /\ cache (self (snd (load_cache_from_file e "cache.csv" s))) = [taskflow_pair].
Proof.
  intros e s.
  assert (H1 : csv_reader e "cache.csv" (world s) = (Ok (rows_of_pairs [taskflow_pair]), tt))
    by reflexivity.
  split; [assumption|].
  destruct (load_file_of_pairs e [taskflow_pair] "cache.csv" s tt H1) as [Hp Hl].
  split; [exact Hp|]. split; [exact Hl|]. by vm_compute.
Defined.

(** A file whose only non-blank row is a header without the columns. *)
Lemma load_without_data_rows_witness :
  let rows := [["foo"]; []; []] in
  let e := with_csv_rows rows never_relevant in
  let s := chatbot [taskflow_pair] 2 false in
  Forall (fun r => r = []) (tail rows)
  /\ csv_reader e "cache.csv" (world s) = (Ok rows, tt)
  /\ read_pairs (DictReader rows) = Ok []
  /\ load_cache_from_file e "cache.csv" s
     = on_cache (CallCacheHydrate []) (cache_hydrate_from_pairs e [])
         {| self := self s; world := tt; calls := [CallOpenCsv "cache.csv"] |}.
Proof.
  intros rows e s.
  assert (H1 : Forall (fun r : list string => r = []) (tail rows))
    by (repeat constructor).
  assert (H2 : csv_reader e "cache.csv" (world s) = (Ok rows, tt)) by reflexivity.
  do 2 (split; [assumption|]).
  exact (load_without_data_rows e rows "cache.csv" s tt H1 H2).
Defined.

(** The one document of the scripted retriever is in the text returned. *)
Lemma retrieve_documents_joins_witness :
  "doc" ∈ ["doc"]
  /\ fst (retrieve_documents never_relevant "taskflow" (chatbot [] 2 true)) = Ok "doc"
  /\ contains "doc" (join (NL +:+ NL) ["doc"]) = true.
Proof.
  assert (H1 : "doc" ∈ ["doc"]) by apply list_elem_of_here.
  split; [assumption|].
  pose proof (proj2 (retrieve_documents_joins never_relevant "taskflow" (chatbot [] 2 true)))
    as H.
  change (fst (retriever_invoke never_relevant "taskflow" (world (chatbot [] 2 true))))
    with (@Ok (list string) ["doc"]) in H.
  destruct H as (Hr & Hc & _). split; [exact Hr|]. exact (Hc "doc" H1).
Defined.
